(** * SpaceApp: light-curve processing and the exoplanet detector

    A shallow embedding of the light-curve processing functions
    ([detrendLightCurve], [normalizeFlux], [detectTransits], [calculateBLS],
    [foldLightCurve], [generateSyntheticLightCurve], found with
    [src/lib/nasaAPI.ts]) and of the detector
    module ([ExoplanetDetector], [calculateSHAPValues], [extractFeatures]).

    A JavaScript [number] is an IEEE 754 binary64 value, so it is embedded
    as Rocq's primitive [float]: [+ - * /], [Math.sqrt], [Math.abs] and the
    comparisons are the primitive operations, and every function below can
    be evaluated on concrete arrays.  Arrays are lists; array lengths and
    indices are natural numbers (or [Z] where the source subtracts). *)

From Stdlib Require Import ZArith List Bool Lia Floats Sorted Permutation.
From stdpp Require Import gmap strings pretty.
Import ListNotations.

Set Warnings "-inexact-float".

(* ===================================================================== *)
(** ** JavaScript numbers and arrays *)
(* ===================================================================== *)

Module JS.

Abbreviation number := float.

(** The result of reading [arr[i]]: [None] is [undefined]. *)
Definition idx {A : Type} (arr : list A) (i : Z) : option A :=
  if (i <? 0)%Z then None else nth_error arr (Z.to_nat i).

(** [ToNumber]: [undefined] used in arithmetic is [NaN]. *)
Definition to_number (v : option number) : number :=
  match v with Some x => x | None => nan end.

(** [arr[i]] used as an operand of arithmetic. *)
Definition num_at (arr : list number) (i : Z) : number := to_number (idx arr i).

(** A natural number (an index, a count or a length) as a number; the
    conversion is exact below 2^53. *)
Definition of_nat (n : nat) : number := of_uint63 (Uint63.of_Z (Z.of_nat n)).

(** [arr.length] as a number; the length of an array is below 2^32. *)
Definition len {A : Type} (arr : list A) : number := of_nat (length arr).

(** [arr.reduce((a, b) => a + b, 0)]. *)
Definition sum (arr : list number) : number :=
  fold_left (fun a b => (a + b)%float) arr 0%float.

(** [arr.slice(start, end)] for [0 <= start] and [0 <= end]. *)
Definition slice {A : Type} (arr : list A) (s e : nat) : list A :=
  firstn (e - s) (skipn s arr).

(** Truthiness of a number: [0], [-0] and [NaN] are falsy. *)
Definition truthy (x : number) : bool := negb (is_nan x || is_zero x).

(** [x || d] on numbers. *)
Definition or_else (x d : number) : number := if truthy x then x else d.

(** [Math.min(a, b)]: [NaN] if either is, and [-0] below [+0]. *)
Definition Math_min (a b : number) : number :=
  if is_nan a || is_nan b then nan
  else if (a <? b)%float then a
  else if (b <? a)%float then b
  else if get_sign a then a else b.

(** [x % y]: the remainder of the truncated division, computed exactly;
    the result has the sign of [x]. *)
Definition rem (x y : number) : number :=
  match Prim2SF x, Prim2SF y with
  | S754_nan, _ | _, S754_nan => nan
  | S754_infinity _, _ => nan
  | _, S754_zero _ => nan
  | S754_zero _, _ => x
  | S754_finite _ _ _, S754_infinity _ => x
  | S754_finite sx mx ex, S754_finite _ my ey =>
      let e := Z.min ex ey in
      let r := ((Z.pos mx * 2 ^ (ex - e)) mod (Z.pos my * 2 ^ (ey - e)))%Z in
      match r with
      | Z0 => if sx then neg_zero else zero
      | _ => SF2Prim (binary_normalize prec emax (cond_Zopp sx r) e sx)
      end
  end.

(** [[...arr].sort((a, b) => a - b)]: a stable sort driven by the sign of
    [a - b]; a comparator result that is not positive (zero or [NaN])
    leaves the two elements in their order.  On an array without [NaN] the
    comparator is consistent and every stable sort gives this result.  With
    a [NaN] in the array the comparator is not consistent and the order is
    the implementation's; the definition then fixes one order, on which no
    property below relies. *)
Fixpoint sort_insert (x : number) (l : list number) : list number :=
  match l with
  | [] => [x]
  | y :: l' => if (0 <? x - y)%float then y :: sort_insert x l' else x :: l
  end.

Definition sort (arr : list number) : list number :=
  fold_right sort_insert [] arr.

(** The same sort on an array of objects, for a comparator [cmp]; the
    same remark applies when a compared key is [NaN]. *)
Fixpoint sort_insert_by {A : Type} (cmp : A -> A -> number) (x : A) (l : list A)
  : list A :=
  match l with
  | [] => [x]
  | y :: l' =>
      if (0 <? cmp x y)%float then y :: sort_insert_by cmp x l' else x :: l
  end.

Definition sort_by {A : Type} (cmp : A -> A -> number) (arr : list A) : list A :=
  fold_right (sort_insert_by cmp) [] arr.

(** [Math.pow(x, n)] at the exponents 0, 1 and 2, where it is 1, [x] and
    the product [x * x]; it is used at the exponent 2 only.  At greater
    exponents the product is not always what the runtime returns: the cube
    and the fourth power of [extractFeatures] go through the runtime's own
    function ([native_pow] below). *)
Fixpoint Math_pow (x : number) (n : nat) : number :=
  match n with
  | O => 1%float
  | S O => x
  | S n' => (x * Math_pow x n')%float
  end.

End JS.

Import JS.

(* ===================================================================== *)
(** ** dataProcessing.ts *)
(* ===================================================================== *)

Record LightCurveData := { time : list number; flux : list number }.

(** [calculateMedian(arr)].  [sorted.length / 2] and [sorted.length % 2] are
    taken on the length, a natural number. *)
Definition calculateMedian (arr : list number) : number :=
  let sorted := sort arr in
  let mid := (length sorted / 2)%nat in
  if (length sorted mod 2 =? 0)%nat
  then ((num_at sorted (Z.of_nat mid - 1) + num_at sorted (Z.of_nat mid)) / 2)%float
  else num_at sorted (Z.of_nat mid).

(** [detrendLightCurve(data)]. *)
Definition detrendLightCurve (data : LightCurveData) : LightCurveData :=
  let windowSize := Nat.min 101 (length (time data) / 10) in
  let detrendedFlux :=
    imap (fun i f =>
      let start := Z.max 0 (Z.of_nat i - Z.of_nat (windowSize / 2)) in
      let end_ := Z.min (Z.of_nat (length (flux data)))
                        (Z.of_nat i + Z.of_nat (windowSize / 2)) in
      let window := slice (flux data) (Z.to_nat start) (Z.to_nat end_) in
      let median := calculateMedian window in
      (f / median)%float) (flux data) in
  {| time := time data; flux := detrendedFlux |}.

(** [normalizeFlux(flux)]. *)
Definition normalizeFlux (flux : list number) : list number :=
  let mean := (sum flux / len flux)%float in
  let std :=
    sqrt (fold_left (fun sum val => sum + Math_pow (val - mean) 2) flux 0
          / len flux)%float in
  map (fun f => ((f - mean) / or_else std 1)%float) flux.

(** [detectTransits(data, threshold)]: the indices whose normalised flux is
    below the threshold. *)
Definition detectTransits (data : LightCurveData) (threshold : number) : list nat :=
  let normalizedFlux := normalizeFlux (flux data) in
  map fst (List.filter (fun iv => (snd iv <? threshold)%float)
                       (imap pair normalizedFlux)).

(** The object [{ period, depth, score }] returned by [calculateBLS]. *)
Record BLSResult := { period : number; depth : number; score : number }.

(** One step of the [phases.forEach] loop of [evaluatePeriod]: the sample at
    index [i] is pushed on [inTransit] or on [outTransit]. *)
Definition classify_sample (flux : list number)
    (acc : list number * list number) (ip : nat * number)
  : list number * list number :=
  let '(inTransit, outTransit) := acc in
  let '(i, phase) := ip in
  if (phase <? 0.1)%float || (0.9 <? phase)%float
  then (inTransit ++ [num_at flux (Z.of_nat i)], outTransit)
  else (inTransit, outTransit ++ [num_at flux (Z.of_nat i)]).

(** [evaluatePeriod(data, period)], returning [(depth, score)]. *)
Definition evaluatePeriod (data : LightCurveData) (period : number)
  : number * number :=
  let phases := map (fun t => (rem t period / period)%float) (time data) in
  let '(inTransit, outTransit) :=
    fold_left (classify_sample (flux data)) (imap pair phases) ([], []) in
  if (length inTransit =? 0)%nat || (length outTransit =? 0)%nat
  then (0%float, 0%float)
  else
    let inMean := (sum inTransit / len inTransit)%float in
    let outMean := (sum outTransit / len outTransit)%float in
    let depth := (1 - inMean / outMean)%float in
    let score := (abs depth * sqrt (len inTransit))%float in
    (depth, score).

Definition minPeriod : number := 0.5%float.

Definition maxPeriod (data : LightCurveData) : number :=
  Math_min 20
    ((num_at (time data) (Z.of_nat (length (time data)) - 1)
      - num_at (time data) 0) / 3)%float.

Definition numPeriods : nat := 100.

(** The candidate period of loop index [i]. *)
Definition candidate (data : LightCurveData) (i : nat) : number :=
  (minPeriod + (maxPeriod data - minPeriod) * of_nat i / of_nat numPeriods)%float.

(** The body of the [for] loop of [calculateBLS]. *)
Definition bls_step (data : LightCurveData) (best : BLSResult) (i : nat)
  : BLSResult :=
  let p := candidate data i in
  let '(d, s) := evaluatePeriod data p in
  if (score best <? s)%float
  then {| period := p; depth := d; score := s |}
  else best.

(** [calculateBLS(data)]. *)
Definition calculateBLS (data : LightCurveData) : BLSResult :=
  fold_left (bls_step data) (seq 0 numPeriods)
    {| period := 0; depth := 0; score := 0 |}.

(** The triple the loop of [calculateBLS] holds for index [i]: the candidate
    period with the depth and score [evaluatePeriod] returns for it. *)
Definition evaluated (data : LightCurveData) (i : nat) : BLSResult :=
  {| period := candidate data i;
     depth := fst (evaluatePeriod data (candidate data i));
     score := snd (evaluatePeriod data (candidate data i)) |}.

(** The all-zero triple the loop starts from. *)
Definition no_detection : BLSResult := {| period := 0; depth := 0; score := 0 |}.

(** [foldLightCurve(data, period, epoch)]; an element of the sorted array is
    the pair [(phase, flux)].  A flux read past the end of the array is
    [undefined]; it is carried as [NaN]. *)
Definition foldLightCurve (data : LightCurveData) (period epoch : number)
  : LightCurveData :=
  let phases := map (fun t => (rem (t - epoch) period / period)%float) (time data) in
  let sorted :=
    sort_by (fun a b => (fst a - fst b)%float)
      (imap (fun i phase => (phase, num_at (flux data) (Z.of_nat i))) phases) in
  {| time := map fst sorted; flux := map snd sorted |}.

(* ===================================================================== *)
(** ** The detector module *)
(* ===================================================================== *)

(** [ExoplanetDetector.padOrTruncate(arr, length)]. *)
Definition padOrTruncate (arr : list number) (length : nat) : list number :=
  if (List.length arr =? length)%nat then arr
  else if (length <? List.length arr)%nat then slice arr 0 length
  else arr ++ repeat 0%float (length - List.length arr).

(** What the JavaScript runtime supplies besides the arithmetic above:
    [x.toFixed(digits)], and [Math.pow(x, y)] as the runtime computes it. *)
Class Runtime := {
  toFixed : number -> nat -> string;
  native_pow : number -> number -> number
}.

(** The result of a call into the tensor library: a value, or the message
    of the exception the library throws. *)
Inductive result (A : Type) :=
| Ok (a : A)
| Raise (message : string).
Arguments Ok {A} a.
Arguments Raise {A} message.

(** The [logs] object [model.fit] hands to [onEpochEnd]; a metric the
    library did not compute is missing from it. *)
Record Logs := { loss : option number; acc : option number }.

(** The tensor library the detector is written against.  Its layers, its
    optimiser and its storage handlers are not part of the repository; the
    detector only relies on the operations below.  [Backend] is the
    library's own state (random initialisation, shuffling); the map from
    paths to blobs is the key-value store behind [model.save] and
    [tf.loadLayersModel], in which a write or a read may fail.

    [tf_predict] is [model.predict] on one row followed by [data()[0]], and
    [tf_grad] the gradient of the prediction at that row; either may throw,
    as on a row that is not of the model's input width.

    [tf_fit] is [tf.tensor2d] on the rows and on the labels followed by
    [model.fit], as the detector sees them: the calls of [onEpochEnd] the
    library makes, in order, each with the epoch number and the logs handed
    over and with the model and the library's state at that moment; and
    how the call ends when no callback throws, with the history or with
    the library's exception, and the model and the state then left. *)
Class TensorLib := {
  LayersModel : Type;
  History : Type;
  Backend : Type;
  Blob : Type;
  tf_compile : nat -> Backend -> LayersModel * Backend;
  tf_fit : LayersModel -> list (list number) -> list number -> number -> number ->
           Backend ->
           list (nat * option Logs * LayersModel * Backend)
           * (result History * LayersModel * Backend);
  tf_predict : LayersModel -> list number -> result number;
  tf_grad : LayersModel -> list number -> result (list number);
  tf_save : LayersModel -> string -> gmap string Blob -> option (gmap string Blob);
  tf_load : string -> gmap string Blob -> option LayersModel
}.

Module Detector.

(** A method either returns a value or throws; both leave a world. *)
Inductive outcome (A : Type) :=
| Return (a : A)
| Throw (message : string).
Arguments Return {A} a.
Arguments Throw {A} message.

Section Detector.

Context `{TensorLib} `{Runtime}.

(** The fields of an [ExoplanetDetector] instance. *)
Record detector := { model : option LayersModel; modelVersion : string }.

(** [new ExoplanetDetector()]. *)
Definition fresh : detector :=
  {| model := None; modelVersion := "v1.0.0-cnn-hybrid" |}.

(** Everything a method can read or change: the instance, the library's
    state, the persisted blobs and the console. *)
Record world := {
  self : detector;
  backend : Backend;
  storage : gmap string Blob;
  console : list string
}.

Definition M (A : Type) : Type := world -> outcome A * world.

Definition ret {A} (a : A) : M A := fun w => (Return a, w).
Definition throw {A} (message : string) : M A := fun w => (Throw message, w).
Definition bind {A B} (m : M A) (k : A -> M B) : M B :=
  fun w => match m w with
           | (Return a, w') => k a w'
           | (Throw e, w') => (Throw e, w')
           end.
Definition get_model : M (option LayersModel) := fun w => (Return (model (self w)), w).
Definition set_model (m : LayersModel) : M unit :=
  fun w => (Return tt,
            {| self := {| model := Some m; modelVersion := modelVersion (self w) |};
               backend := backend w; storage := storage w; console := console w |}).

(** [this.model] and the library's state during [model.fit], which
    trains the model in place. *)
Definition put_model (m : LayersModel) (b : Backend) : M unit :=
  fun w => (Return tt,
            {| self := {| model := Some m; modelVersion := modelVersion (self w) |};
               backend := b; storage := storage w; console := console w |}).
(** [console.log(line)]. *)
Definition console_log (line : string) : M unit :=
  fun w => (Return tt,
            {| self := self w; backend := backend w; storage := storage w;
               console := console w ++ [line] |}).

#[local] Instance M_ret : MRet M := @ret.
#[local] Instance M_bind : MBind M := fun A B k m => bind m k.

(** [buildModel(inputShape)]: the layer stack is assembled and compiled by
    the library, then stored in [this.model]. *)
Definition buildModel (inputShape : nat) : M unit :=
  fun w =>
    let '(m, b) := tf_compile inputShape (backend w) in
    (Return tt,
     {| self := {| model := Some m; modelVersion := modelVersion (self w) |};
        backend := b; storage := storage w; console := console w |}).

(** [if (!this.model) await this.buildModel()], then [this.model!]. *)
Definition ensure_model : M LayersModel :=
  m ← get_model;
  match m with
  | Some m => ret m
  | None =>
      buildModel 200;;
      m' ← get_model;
      match m' with
      | Some m' => ret m'
      | None => throw "Cannot read properties of null"
      end
  end.

Definition inputLength : nat := 200.

(** The text [onEpochEnd] logs,
    [`Epoch ${epoch + 1}: loss = ${logs?.loss.toFixed(4)}, acc = ${logs?.acc.toFixed(4)}`].
    Without a [logs] object both values print as [undefined].  With one,
    a missing [loss] or [acc] is [undefined], of which [toFixed] cannot be
    read: there is no text ([None]) but a [TypeError]. *)
Definition epoch_line (epoch : nat) (logs : option Logs) : option string :=
  match logs with
  | None =>
      Some ("Epoch " +:+ pretty (epoch + 1)%nat
            +:+ ": loss = undefined, acc = undefined")
  | Some l =>
      match loss l, acc l with
      | Some lo, Some a =>
          Some ("Epoch " +:+ pretty (epoch + 1)%nat +:+ ": loss = " +:+ toFixed lo 4
                +:+ ", acc = " +:+ toFixed a 4)
      | _, _ => None
      end
  end.

(** The callback [onEpochEnd(epoch, logs)] of [trainModel]. *)
Definition onEpochEnd (epoch : nat) (logs : option Logs) : M unit :=
  match epoch_line epoch logs with
  | Some line => console_log line
  | None => throw "Cannot read properties of undefined (reading 'toFixed')"
  end.

(** The epochs of [model.fit]: after each, the model is as trained so far
    and the callback runs; a callback that throws ends the training. *)
Fixpoint run_epochs (calls : list (nat * option Logs * LayersModel * Backend))
  : M unit :=
  match calls with
  | [] => ret tt
  | (epoch, logs, m, b) :: rest =>
      put_model m b;; onEpochEnd epoch logs;; run_epochs rest
  end.

(** [trainModel(trainingData, labels, epochs, batchSize)]. *)
Definition trainModel (trainingData : list LightCurveData) (labels : list number)
    (epochs batchSize : number) : M History :=
  m ← ensure_model;
  let processedData :=
    map (fun lc => padOrTruncate (normalizeFlux (flux lc)) inputLength) trainingData in
  ((fun w =>
     let '(calls, (h, m', b')) :=
       tf_fit m processedData labels epochs batchSize (backend w) in
     (run_epochs calls;;
      put_model m' b';;
      match h with
      | Ok h => ret h
      | Raise e => throw e
      end) w) : M History).

(** [computeSaliency(input)]. *)
Definition computeSaliency (input : list number) : M (list number) :=
  m ← get_model;
  match m with
  | None => ret []
  | Some m =>
      match tf_grad m input with
      | Ok gradient => ret (map abs gradient)
      | Raise e => throw e
      end
  end.

Record Prediction := {
  confidence : number;
  isExoplanet : bool;
  saliency : list number
}.

(** [predict(lightCurve)]. *)
Definition predict (lightCurve : LightCurveData) : M Prediction :=
  m ← ensure_model;
  let normalized := normalizeFlux (flux lightCurve) in
  let processed := padOrTruncate normalized inputLength in
  match tf_predict m processed with
  | Raise e => throw e
  | Ok confidence =>
      saliency ← computeSaliency processed;
      ret {| confidence := confidence;
             isExoplanet := (0.5 <? confidence)%float;
             saliency := saliency |}
  end.

(** [saveModel(path)]: a failed write is the library's exception. *)
Definition saveModel (path : string) : M unit :=
  m ← get_model;
  match m with
  | Some m =>
      ((fun w =>
         match tf_save m path (storage w) with
         | Some st =>
             (Return tt,
              {| self := self w; backend := backend w; storage := st;
                 console := console w |})
         | None => (Throw "save failed", w)
         end) : M unit)
  | None => ret tt
  end.

(** [loadModel(path)]. *)
Definition loadModel (path : string) : M unit :=
  fun w =>
    match tf_load path (storage w) with
    | Some m => set_model m w
    | None =>
        buildModel 200
          {| self := self w; backend := backend w; storage := storage w;
             console := console w ++ ["No saved model found, building new model"] |}
    end.

(** [getModelVersion()]. *)
Definition getModelVersion : M string := fun w => (Return (modelVersion (self w)), w).

(** [calculateROCAUC(labels, predictions)].  The counters are natural
    numbers, turned into numbers where they are divided. *)
Definition calculateROCAUC (labels predictions : list number) : number :=
  let pairs := imap (fun i label => (label, num_at predictions (Z.of_nat i))) labels in
  let pairs := sort_by (fun a b => (snd b - snd a)%float) pairs in
  let positives := length (List.filter (fun l => (l =? 1)%float) labels) in
  let negatives := (length labels - positives)%nat in
  if (positives =? 0)%nat || (negatives =? 0)%nat then 0.5%float
  else
    let '(auc, _) :=
      fold_left (fun '(auc, truePositives) pair =>
                   if (fst pair =? 1)%float
                   then (auc, S truePositives)
                   else ((auc + truePositives)%nat, truePositives))
                pairs (0%nat, 0%nat) in
    (of_nat auc / of_nat (positives * negatives))%float.

Record Metrics := {
  accuracy : number;
  precision : number;
  recall : number;
  f1Score : number;
  rocAuc : number
}.

(** The confusion counts of the evaluation loop, kept as natural numbers
    and turned into numbers where they are divided. *)
Record counts := {
  truePositives : nat;
  trueNegatives : nat;
  falsePositives : nat;
  falseNegatives : nat
}.

Definition tally (c : counts) (predicted : bool) (actual : number) : counts :=
  if predicted && (actual =? 1)%float then
    {| truePositives := S (truePositives c); trueNegatives := trueNegatives c;
       falsePositives := falsePositives c; falseNegatives := falseNegatives c |}
  else if negb predicted && (actual =? 0)%float then
    {| truePositives := truePositives c; trueNegatives := S (trueNegatives c);
       falsePositives := falsePositives c; falseNegatives := falseNegatives c |}
  else if predicted && (actual =? 0)%float then
    {| truePositives := truePositives c; trueNegatives := trueNegatives c;
       falsePositives := S (falsePositives c); falseNegatives := falseNegatives c |}
  else if negb predicted && (actual =? 1)%float then
    {| truePositives := truePositives c; trueNegatives := trueNegatives c;
       falsePositives := falsePositives c; falseNegatives := S (falseNegatives c) |}
  else c.

(** The [for] loop of [evaluateModel], from index [i] on. *)
Fixpoint evaluate_loop (testData : list LightCurveData) (testLabels : list number)
    (i : nat) (c : counts) (predictions : list number)
  : M (counts * list number) :=
  match testData with
  | [] => ret (c, predictions)
  | lc :: rest =>
      result ← predict lc;
      evaluate_loop rest testLabels (S i)
        (tally c (isExoplanet result) (num_at testLabels (Z.of_nat i)))
        (predictions ++ [confidence result])
  end.

(** [evaluateModel(testData, testLabels)]. *)
Definition evaluateModel (testData : list LightCurveData) (testLabels : list number)
  : M Metrics :=
  m ← get_model;
  match m with
  | None => throw "Model not initialized"
  | Some _ =>
      '(c, predictions) ←
        evaluate_loop testData testLabels 0
          {| truePositives := 0; trueNegatives := 0;
             falsePositives := 0; falseNegatives := 0 |} [];
      let tp := of_nat (truePositives c) in
      let accuracy :=
        (of_nat (truePositives c + trueNegatives c) / len testData)%float in
      let precision :=
        or_else (tp / of_nat (truePositives c + falsePositives c))%float 0 in
      let recall :=
        or_else (tp / of_nat (truePositives c + falseNegatives c))%float 0 in
      let f1Score :=
        or_else (2 * (precision * recall) / (precision + recall))%float 0 in
      let rocAuc := calculateROCAUC testLabels predictions in
      ret {| accuracy := accuracy; precision := precision; recall := recall;
             f1Score := f1Score; rocAuc := rocAuc |}
  end.

End Detector.
End Detector.

(** The ambient source behind [Math.random()]: [draws] lists the values it
    returns, in order, and [drawn] counts the calls made so far. *)
Record Random := { draws : nat -> number; drawn : nat }.

Definition Math_random (r : Random) : number * Random :=
  (draws r (drawn r), {| draws := draws r; drawn := S (drawn r) |}).

(** The names a plain object inherits from [Object.prototype]. *)
Definition Object_prototype_members : list string :=
  ["constructor"; "__defineGetter__"; "__defineSetter__"; "hasOwnProperty";
   "__lookupGetter__"; "__lookupSetter__"; "isPrototypeOf";
   "propertyIsEnumerable"; "toString"; "valueOf"; "__proto__";
   "toLocaleString"]%string.

Definition inherited (key : string) : bool :=
  existsb (String.eqb key) Object_prototype_members.

(** [baselineValues[key] || 0] as the operand of the subtraction, for a
    plain object whose own entries are [baselineValues].  An own entry is
    a number.  A key that is no own entry but names a member of
    [Object.prototype] reads that member, a function or an object: it is
    truthy, so it is what is subtracted, and as a number it is [NaN]. *)
Definition baseline_of (baselineValues : gmap string number) (key : string) : number :=
  match baselineValues !! key with
  | Some b => or_else b 0
  | None => if inherited key then nan else 0%float
  end.

(** [shapValues[key] = v] on the plain object [shapValues]: the assignment
    to [__proto__] runs the setter of [Object.prototype], which ignores a
    number, and creates no entry. *)
Definition assign (shapValues : gmap string number) (key : string) (v : number)
  : gmap string number :=
  if String.eqb key "__proto__" then shapValues else <[key := v]> shapValues.

(** The body of the loop of [calculateSHAPValues] for one entry
    [[key, value]]: one call of [Math.random()], one property written. *)
Definition shap_step (baselineValues : gmap string number)
    (acc : gmap string number * Random) (entry : string * number)
  : gmap string number * Random :=
  let '(shapValues, r) := acc in
  let '(key, value) := entry in
  let baseline := baseline_of baselineValues key in
  let '(u, r') := Math_random r in
  (assign shapValues key ((value - baseline) * u * 0.5)%float, r').

(** [calculateSHAPValues(features, baselineValues)].  [features] is given by
    [Object.entries(features)], its properties in order; the result is the
    object [shapValues], by its own entries. *)
Definition calculateSHAPValues (features : list (string * number))
    (baselineValues : gmap string number) (r : Random)
  : gmap string number * Random :=
  fold_left (shap_step baselineValues) features (∅, r).

Module Features.

(** The object returned by [extractFeatures]; [min] and [max] are array
    reads, [undefined] on an empty array. *)
Record FeatureVector := {
  mean : number;
  variance : number;
  std : number;
  min : option number;
  max : option number;
  range : number;
  skewness : number;
  kurtosis : number
}.

(** [extractFeatures(lightCurve)]. *)
Definition extractFeatures `{Runtime} (lightCurve : LightCurveData) : FeatureVector :=
  let flux := flux lightCurve in
  let mean := (sum flux / len flux)%float in
  let variance :=
    (fold_left (fun sum val => sum + Math_pow (val - mean) 2) flux 0 / len flux)%float in
  let std := sqrt variance in
  let sorted := sort flux in
  let min := idx sorted 0 in
  let max := idx sorted (Z.of_nat (length sorted) - 1) in
  let skewness :=
    (fold_left (fun sum val => sum + native_pow ((val - mean) / std) 3) flux 0
     / len flux)%float in
  let kurtosis :=
    (fold_left (fun sum val => sum + native_pow ((val - mean) / std) 4) flux 0
     / len flux - 3)%float in
  {| mean := mean; variance := variance; std := std; min := min; max := max;
     range := (to_number max - to_number min)%float;
     skewness := skewness; kurtosis := kurtosis |}.

End Features.

(* ===================================================================== *)
(** ** The period search as the specification words it *)
(* ===================================================================== *)

Module BLSSpec.

Local Open Scope float_scope.

(** The phase of a sample time for a period. *)
Definition phase (period t : number) : number := rem t period / period.


Definition mean (l : list number) : number := sum l / len l.






End BLSSpec.

(* ===================================================================== *)
(** ** Example inputs *)
(* ===================================================================== *)


Definition short_dip : LightCurveData :=
  {| time := [0; 0.25]%float; flux := [0.5; 1]%float |}.


Definition three_samples : LightCurveData :=
  {| time := [0; 1; 2]%float; flux := [1; 1; 1]%float |}.

Definition four_samples : LightCurveData :=
  {| time := [0; 1; 2; 3]%float; flux := [1; 2; 3; 4]%float |}.

(** A tensor library small enough to run the detector's methods.  A model
    is its input width: on a row of that width it answers 0.75 with a zero
    gradient, and it throws on a row of another width.  Training on no
    curve throws, training on a single curve hands over logs without a
    loss, and training on more runs one epoch.  The store keeps what is
    saved. *)
Definition constant_lib : TensorLib := {|
  LayersModel := nat;
  History := unit;
  Backend := unit;
  Blob := nat;
  tf_compile := fun inputShape b => (inputShape, b);
  tf_fit := fun m rows _ _ _ b =>
    match rows with
    | [] => ([], (Raise "tensor2d() requires shape to be provided", m, b))
    | [_] => ([(0%nat, Some {| loss := None; acc := None |}, m, b)], (Ok tt, m, b))
    | _ =>
        ([(0%nat, Some {| loss := Some 0.5%float; acc := Some 0.5%float |}, m, b)],
         (Ok tt, m, b))
    end;
  tf_predict := fun m input =>
    if (length input =? m)%nat then Ok 0.75%float
    else Raise "Error when checking input shape";
  tf_grad := fun m input =>
    if (length input =? m)%nat then Ok (map (fun _ => 0%float) input)
    else Raise "Error when checking input shape";
  tf_save := fun m path st => Some (<[path := m]> st);
  tf_load := fun path st => st !! path
|}.

(** A runtime small enough to run the examples: numbers print as a fixed
    text, and the power is a product. *)
Definition example_runtime : Runtime := {|
  toFixed := fun _ _ => "0.5000"%string;
  native_pow := fun x y => if (y =? 3)%float then (x * x * x)%float
                           else (x * x * x * x)%float
|}.

(** A detector just constructed, with an empty store. *)
Definition new_world : @Detector.world constant_lib :=
  @Detector.Build_world constant_lib Detector.fresh tt ∅ [].

(** Two features with the same value, and a random source that returns 0
    and then 0.5. *)
Definition two_features : list (string * number) :=
  [("mean"%string, 1%float); ("std"%string, 1%float)].

Definition zero_then_half : Random :=
  {| draws := fun n => match n with O => 0%float | _ => 0.5%float end; drawn := 0 |}.

Definition three_fluxes : LightCurveData :=
  {| time := [0; 1; 2]%float; flux := [1; 2; 4]%float |}.

(* ===================================================================== *)
(** ** Predicates used in the statements *)
(* ===================================================================== *)

(** A sample time that is a finite number, not below 0. *)
Definition nonneg_time (t : number) : bool := is_finite t && (0 <=? t)%float.


(** The population variance of a series: the sum of the squared deviations
    from the mean, divided by the number of values. *)
Definition population_variance (flux : list number) : number :=
  let mu := (sum flux / len flux)%float in
  (sum (map (fun f => (f - mu) * (f - mu)) flux) / len flux)%float.

(** Shapes of a binary64 value in its specification form: [x] is a zero, an
    infinity or a finite number of sign [s]. *)
Definition signed_as (s : bool) (x : spec_float) : bool :=
  match x with
  | S754_zero s' | S754_infinity s' | S754_finite s' _ _ => Bool.eqb s s'
  | S754_nan => false
  end.

(** [x] is a zero or a finite number. *)
Definition sf_finite (x : spec_float) : bool :=
  match x with
  | S754_zero _ | S754_finite _ _ _ => true
  | _ => false
  end.

(* ===================================================================== *)
(** ** Notions used in the further properties *)
(* ===================================================================== *)

(** The world in which [this.model] has become [m] and the library's state
    [b]; nothing else is touched. *)
Definition with_model `{TensorLib} (m : LayersModel) (b : Backend)
    (w : Detector.world) : Detector.world :=
  {| Detector.self :=
       {| Detector.model := Some m;
          Detector.modelVersion := Detector.modelVersion (Detector.self w) |};
     Detector.backend := b;
     Detector.storage := Detector.storage w;
     Detector.console := Detector.console w |}.

(** The array handed to the model for a light curve. *)
Definition model_input (lc : LightCurveData) : list number :=
  padOrTruncate (normalizeFlux (flux lc)) Detector.inputLength.

(** What [predict] answers from the model [m]: the prediction, or the
    exception of the library's prediction or gradient. *)
Definition prediction_of `{TensorLib} (m : LayersModel) (lc : LightCurveData)
  : result Detector.Prediction :=
  match tf_predict m (model_input lc) with
  | Raise e => Raise e
  | Ok c =>
      match tf_grad m (model_input lc) with
      | Raise e => Raise e
      | Ok gradient =>
          Ok {| Detector.confidence := c;
                Detector.isExoplanet := (0.5 <? c)%float;
                Detector.saliency := map abs gradient |}
      end
  end.

(** The library answers the light curve [lc] for the model [m]. *)
Definition answers `{TensorLib} (m : LayersModel) (lc : LightCurveData) : Prop :=
  exists p, prediction_of m lc = Ok p.

(** A result of the library as the outcome of the method that asked. *)
Definition outcome_of {A : Type} (r : result A) : Detector.outcome A :=
  match r with
  | Ok a => Detector.Return a
  | Raise e => Detector.Throw e
  end.

(** The world after the lines were logged. *)
Definition logged `{TensorLib} (lines : list string) (w : Detector.world)
  : Detector.world :=
  {| Detector.self := Detector.self w;
     Detector.backend := Detector.backend w;
     Detector.storage := Detector.storage w;
     Detector.console := Detector.console w ++ lines |}.

(** The lines [onEpochEnd] logs for the calls the library makes. *)
Definition lines_of `{TensorLib} `{Runtime}
    (calls : list (nat * option Logs * LayersModel * Backend))
    (lines : list string) : Prop :=
  Forall2 (fun call line =>
             Detector.epoch_line (fst (fst (fst call))) (snd (fst (fst call)))
             = Some line) calls lines.

(** The message of the [TypeError] of [onEpochEnd]. *)
Definition toFixed_of_undefined : string :=
  "Cannot read properties of undefined (reading 'toFixed')".

(** A flux that is a single infinity. *)
Definition infinite_flux : LightCurveData :=
  {| time := [0]%float; flux := [infinity] |}.

(** The small library's detector after [buildModel(200)]. *)
Definition built_world : @Detector.world constant_lib :=
  @with_model constant_lib 200%nat tt new_world.

(** The small library's detector after [buildModel(200)] and a training
    of one epoch. *)
Definition trained_world : @Detector.world constant_lib :=
  @logged constant_lib ["Epoch 1: loss = 0.5000, acc = 0.5000"%string] built_world.

(** The small library's detector after [buildModel(100)]. *)
Definition narrow_world : @Detector.world constant_lib :=
  @with_model constant_lib 100%nat tt new_world.

(** A method left the version tag and the persisted blobs as they were. *)
Definition keeps_version_and_store `{TensorLib} (w w' : Detector.world) : Prop :=
  Detector.modelVersion (Detector.self w') = Detector.modelVersion (Detector.self w)
  /\ Detector.storage w' = Detector.storage w.

(** A light curve with a single sample. *)
Definition single_sample : LightCurveData :=
  {| time := [3]%float; flux := [0.5]%float |}.

(** The number of test curves the confusion counts account for. *)
Definition counted `{TensorLib} (c : Detector.counts) : nat :=
  (Detector.truePositives c + Detector.trueNegatives c
   + Detector.falsePositives c + Detector.falseNegatives c)%nat.

(** A label the evaluation loop recognises: 0 or 1. *)
Definition is_label (l : number) : bool := ((l =? 0) || (l =? 1))%float.

(** [x] is an infinity or a finite number of sign [s]: not a zero. *)
Definition nonzero_signed (s : bool) (x : spec_float) : bool :=
  match x with
  | S754_infinity s' | S754_finite s' _ _ => Bool.eqb s s'
  | _ => false
  end.

(* ===================================================================== *)
(** ** generateSyntheticLightCurve *)
(* ===================================================================== *)

(** [Math.PI]. *)
Definition Math_PI : number := 0x1.921fb54442d18p+1%float.

Section Synthetic.

Local Open Scope float_scope.

(** [Math.cos] is the runtime's; the generator is written against it. *)
Variable Math_cos : number -> number.

(** [time.map(() => 1.0 + (Math.random() - 0.5) * 0.001)]: one call of
    [Math.random()] per element, in order. *)
Definition noise_step (acc : list number * Random) (t : number)
  : list number * Random :=
  let '(flux, r) := acc in
  let '(u, r') := Math_random r in
  (flux ++ [1.0 + (u - 0.5) * 0.001], r').

(** The body of [time.forEach((t, i) => ...)]: [flux[i]] is scaled in
    place when the phase is below the duration; [i] is an index of
    [flux]. *)
Definition transit_step (period depth duration : number) (flux : list number)
    (it : nat * number) : list number :=
  let '(i, t) := it in
  let phase := rem t period / period in
  if phase <? duration then
    let transitShape := Math_cos (Math_PI * phase / duration) in
    <[i := num_at flux (Z.of_nat i) * (1 - depth * (1 - transitShape) / 2)]> flux
  else flux.

(** [generateSyntheticLightCurve(hasTransit, length)], with the random
    source it draws from; [length] is an array length. *)
Definition generateSyntheticLightCurve (hasTransit : bool) (length : nat)
    (r : Random) : LightCurveData * Random :=
  let time := map (fun i => of_nat i * 0.02) (seq 0 length) in
  let '(flux, r) := fold_left noise_step time ([], r) in
  if hasTransit then
    let '(u, r) := Math_random r in
    let period := 3 + u * 7 in
    let '(u, r) := Math_random r in
    let depth := 0.005 + u * 0.015 in
    let '(u, r) := Math_random r in
    let duration := 0.05 + u * 0.05 in
    let flux := fold_left (transit_step period depth duration) (imap pair time) flux in
    ({| time := time; flux := flux |}, r)
  else ({| time := time; flux := flux |}, r).

(** The flux of a sample at time [t] whose noisy value is [f], for a
    transit of the given period, depth and duration. *)
Definition with_transit (period depth duration t f : number) : number :=
  if rem t period / period <? duration
  then f * (1 - depth * (1 - Math_cos (Math_PI * (rem t period / period) / duration)) / 2)
  else f.

End Synthetic.

(* ===================================================================== *)
(** ** Facts about binary64 comparisons *)
(* ===================================================================== *)

Module FloatOrder.

Local Open Scope float_scope.

Lemma compare_cont_is_compare (p q : positive) :
  Pos.compare_cont Eq p q = (p ?= q)%positive.
Proof. reflexivity. Qed.

Ltac order_cases :=
  repeat match goal with
    | |- context [Pos.compare_cont Eq ?a ?b] =>
        rewrite (compare_cont_is_compare a b)
    | |- context [(?a ?= ?b)%Z] => destruct (Z.compare_spec a b); subst
    | H : context [(?a ?= ?b)%Z] |- _ => destruct (Z.compare_spec a b); subst
    | |- context [(?a ?= ?b)%positive] => destruct (Pos.compare_spec a b); subst
    | H : context [(?a ?= ?b)%positive] |- _ => destruct (Pos.compare_spec a b); subst
    end;
  simpl in *; try congruence; try lia.

Lemma SFltb_irrefl x : SFltb x x = false.
Proof.
  unfold SFltb, SFcompare.
  destruct x as [[]|[]| |[] m e]; try reflexivity; order_cases.
Qed.

Lemma SFltb_trans x y z : SFltb x y = true -> SFltb y z = true -> SFltb x z = true.
Proof.
  unfold SFltb, SFcompare.
  destruct x as [[]|[]| |[] mx ex], y as [[]|[]| |[] my ey],
           z as [[]|[]| |[] mz ez];
    simpl; try congruence; order_cases.
Qed.

Lemma SFltb_leb_trans x y z : SFltb x y = true -> SFleb y z = true -> SFltb x z = true.
Proof.
  unfold SFltb, SFleb, SFcompare.
  destruct x as [[]|[]| |[] mx ex], y as [[]|[]| |[] my ey],
           z as [[]|[]| |[] mz ez];
    simpl; try congruence; order_cases.
Qed.

Lemma SFltb_leb x y : SFltb x y = true -> SFleb x y = true.
Proof.
  unfold SFltb, SFleb. destruct (SFcompare x y) as [[]|]; congruence.
Qed.

Lemma ltb_irrefl x : (x <? x) = false.
Proof. rewrite ltb_spec. apply SFltb_irrefl. Qed.

Lemma ltb_trans x y z : (x <? y) = true -> (y <? z) = true -> (x <? z) = true.
Proof. rewrite !ltb_spec. apply SFltb_trans. Qed.

Lemma ltb_leb_trans x y z : (x <? y) = true -> (y <=? z) = true -> (x <? z) = true.
Proof. rewrite !ltb_spec, leb_spec. apply SFltb_leb_trans. Qed.

Lemma ltb_leb x y : (x <? y) = true -> (x <=? y) = true.
Proof. rewrite ltb_spec, leb_spec. apply SFltb_leb. Qed.

End FloatOrder.

(* ===================================================================== *)
(** ** Facts about binary64 rounding and signs *)
(* ===================================================================== *)

Module FloatSign.

Section Rounding.
Variables prec emax : Z.

Lemma shr_1_nonneg mrs : (0 <= shr_m mrs)%Z -> (0 <= shr_m (shr_1 mrs))%Z.
Proof.
  destruct mrs as [m r s]. cbn [shr_m]. intros Hm.
  destruct m as [|[p|p|]|p]; cbn; lia.
Qed.

Lemma iter_pos_shr_1_nonneg p :
  forall mrs, (0 <= shr_m mrs)%Z -> (0 <= shr_m (SpecFloat.iter_pos shr_1 p mrs))%Z.
Proof.
  induction p as [p IH|p IH|]; intros mrs Hm; cbn [SpecFloat.iter_pos].
  - apply IH, IH, shr_1_nonneg, Hm.
  - apply IH, IH, Hm.
  - apply shr_1_nonneg, Hm.
Qed.

Lemma shr_record_of_loc_m m l : shr_m (shr_record_of_loc m l) = m.
Proof. destruct l as [|[]]; reflexivity. Qed.

Lemma shr_fexp_nonneg m e l :
  (0 <= m)%Z -> (0 <= shr_m (fst (shr_fexp prec emax m e l)))%Z.
Proof.
  intros Hm. unfold shr_fexp, shr.
  destruct (_ - e)%Z; cbn [fst]; rewrite ?shr_record_of_loc_m; try assumption.
  apply iter_pos_shr_1_nonneg. now rewrite shr_record_of_loc_m.
Qed.

Lemma round_nearest_even_nonneg m l :
  (0 <= m)%Z -> (0 <= round_nearest_even m l)%Z.
Proof.
  intros Hm. unfold round_nearest_even.
  destruct l as [|[]]; try destruct (Z.even m); lia.
Qed.

(** Rounding a non-negative mantissa gives a zero, a finite number or an
    infinity of the sign asked for, never [NaN]. *)
Lemma binary_round_aux_signed s m e l :
  (0 <= m)%Z -> signed_as s (binary_round_aux prec emax s m e l) = true.
Proof.
  intros Hm. unfold binary_round_aux.
  pose proof (shr_fexp_nonneg m e l Hm) as H1.
  destruct (shr_fexp prec emax m e l) as [mrs' e']. cbn [fst] in H1.
  pose proof (shr_fexp_nonneg _ e' loc_Exact
                (round_nearest_even_nonneg _ (loc_of_shr_record mrs') H1)) as H2.
  destruct (shr_fexp prec emax _ e' loc_Exact) as [mrs'' e'']. cbn [fst] in H2.
  destruct (shr_m mrs'') as [|p|p]; [| |lia]; cbn.
  - apply eqb_reflx.
  - destruct (e'' <=? emax - prec)%Z; apply eqb_reflx.
Qed.

Lemma binary_round_signed s m e :
  signed_as s (binary_round prec emax s m e) = true.
Proof.
  unfold binary_round. destruct (shl_align m e _) as [mz ez].
  apply binary_round_aux_signed. lia.
Qed.

End Rounding.

Section Operations.
Variables prec emax : Z.

Lemma signed_as_not_nan s x : signed_as s x = true -> x <> S754_nan.
Proof. now destruct x. Qed.

Lemma signed_as_nonneg x :
  signed_as false x = true -> SFleb (S754_zero false) x = true.
Proof. now destruct x as [[]|[]| |[] m e]. Qed.

Lemma binary_normalize_not_nan m e sz :
  binary_normalize prec emax m e sz <> S754_nan.
Proof.
  destruct m as [|p|p]; cbn [binary_normalize]; [discriminate| |];
    eapply signed_as_not_nan, binary_round_signed.
Qed.

Lemma SFmul_self_nonneg x :
  x <> S754_nan -> SFleb (S754_zero false) (SFmul prec emax x x) = true.
Proof.
  intros Hx. apply signed_as_nonneg.
  destruct x as [s|s| |s m e]; [| |congruence|]; cbn [SFmul].
  - now destruct s.
  - now destruct s.
  - replace (xorb s s) with false by now destruct s.
    now apply binary_round_aux_signed.
Qed.

Lemma SFadd_nonneg x y :
  SFleb (S754_zero false) x = true -> SFleb (S754_zero false) y = true ->
  SFleb (S754_zero false) (SFadd prec emax x y) = true.
Proof.
  destruct x as [[]|[]| |[] mx ex], y as [[]|[]| |[] my ey];
    try discriminate; try reflexivity.
  intros _ _. cbn [SFadd cond_Zopp Z.add binary_normalize].
  apply signed_as_nonneg, binary_round_signed.
Qed.

Lemma SFadd_not_nan x y :
  x <> S754_nan -> sf_finite y = true -> SFadd prec emax x y <> S754_nan.
Proof.
  destruct x as [sx|sx| |sx mx ex], y as [sy|sy| |sy my ey];
    try discriminate; try congruence; intros _ _; cbn [SFadd].
  - destruct sx, sy; discriminate.
  - apply binary_normalize_not_nan.
Qed.

Lemma SFsub_not_nan x y :
  sf_finite x = true -> y <> S754_nan -> SFsub prec emax x y <> S754_nan.
Proof.
  destruct x as [sx|sx| |sx mx ex], y as [sy|sy| |sy my ey];
    try discriminate; try congruence; intros _ _; cbn [SFsub].
  - destruct sx, sy; discriminate.
  - apply binary_normalize_not_nan.
Qed.

Lemma SFdiv_core_nonneg mx ex my ey :
  (0 <= fst (fst (SFdiv_core_binary prec emax (Z.pos mx) ex (Z.pos my) ey)))%Z.
Proof.
  unfold SFdiv_core_binary.
  set (s := (_ - _ - _)%Z).
  set (m' := match s with Z.pos _ => _ | Z0 => _ | Z.neg _ => _ end).
  assert (Hm' : (0 <= m')%Z).
  { subst m'. destruct s; [lia| |lia]. apply Z.shiftl_nonneg. lia. }
  destruct (Z.div_eucl m' (Z.pos my)) as [q r] eqn:E. cbn [fst].
  assert (q = (m' / Z.pos my)%Z) as -> by (unfold Z.div; now rewrite E).
  apply Z.div_pos; lia.
Qed.

Lemma SFdiv_signed x sy my ey :
  x <> S754_nan ->
  exists s, signed_as s (SFdiv prec emax x (S754_finite sy my ey)) = true.
Proof.
  destruct x as [sx|sx| |sx mx ex]; [| |congruence|]; intros _; cbn [SFdiv].
  - exists (xorb sx sy). apply eqb_reflx.
  - exists (xorb sx sy). apply eqb_reflx.
  - pose proof (SFdiv_core_nonneg mx ex my ey) as Hq.
    destruct (SFdiv_core_binary _ _ _ _ _ _) as [[mz ez] lz]. cbn [fst] in Hq.
    exists (xorb sx sy). now apply binary_round_aux_signed.
Qed.

Lemma SFdiv_not_nan x sy my ey :
  x <> S754_nan -> SFdiv prec emax x (S754_finite sy my ey) <> S754_nan.
Proof.
  intros Hx. destruct (SFdiv_signed x sy my ey Hx) as [s Hs].
  eapply signed_as_not_nan, Hs.
Qed.

Lemma SFdiv_nonneg x my ey :
  SFleb (S754_zero false) x = true ->
  SFleb (S754_zero false) (SFdiv prec emax x (S754_finite false my ey)) = true.
Proof.
  destruct x as [[]|[]| |[] mx ex]; try discriminate; try reflexivity.
  intros _. cbn [SFdiv xorb].
  pose proof (SFdiv_core_nonneg mx ex my ey) as Hq.
  destruct (SFdiv_core_binary _ _ _ _ _ _) as [[mz ez] lz]. cbn [fst] in Hq.
  now apply signed_as_nonneg, binary_round_aux_signed.
Qed.

End Operations.

Section Integers.

Lemma binary_round_aux_canonical prec emax s m e :
  fexp prec emax (Z.pos (digits2_pos m) + e) = e ->
  (e <=? emax - prec)%Z = true ->
  binary_round_aux prec emax s (Z.pos m) e loc_Exact = S754_finite s m e.
Proof.
  intros Hcan Hbound. unfold binary_round_aux, shr_fexp.
  cbn [Zdigits2 shr_record_of_loc]. rewrite Hcan, Z.sub_diag.
  cbn [shr shr_m loc_of_shr_record round_nearest_even Zdigits2 shr_record_of_loc].
  rewrite Hcan, Z.sub_diag. cbn [shr shr_m]. now rewrite Hbound.
Qed.

Lemma digits2_pos_iter_xO p k :
  digits2_pos (Pos.iter xO p k) = (digits2_pos p + k)%positive.
Proof.
  induction k as [|k IH] using Pos.peano_ind.
  - cbn. lia.
  - rewrite Pos.iter_succ. cbn [digits2_pos]. rewrite IH. lia.
Qed.

(** A positive integer below 2^53 is a finite positive binary64 number. *)
Lemma binary_round_integer p :
  (Z.pos (digits2_pos p) <= 53)%Z ->
  exists m e, binary_round prec emax false p 0 = S754_finite false m e.
Proof.
  intros Hd. unfold binary_round, shl_align.
  assert (Hfexp : fexp prec emax (Z.pos (digits2_pos p) + 0)
                  = (Z.pos (digits2_pos p) - 53)%Z).
  { unfold fexp, SpecFloat.emin, prec, emax. lia. }
  rewrite Hfexp.
  destruct (Z.pos (digits2_pos p) - 53 - 0)%Z as [|k|k] eqn:Ek; [|lia|].
  - exists p, 0%Z. apply binary_round_aux_canonical.
    + rewrite Hfexp. lia.
    + reflexivity.
  - exists (Pos.iter xO p k), (Z.pos (digits2_pos p) - 53)%Z.
    apply binary_round_aux_canonical.
    + rewrite digits2_pos_iter_xO. unfold fexp, SpecFloat.emin, prec, emax. lia.
    + unfold prec, emax. apply Z.leb_le. lia.
Qed.

Lemma digits2_pos_bound p n :
  (Z.pos p < 2 ^ Z.of_nat n)%Z -> (Z.pos (digits2_pos p) <= Z.of_nat n)%Z.
Proof.
  revert p. induction n as [|n IH]; intros p Hp.
  - cbn in Hp. lia.
  - rewrite Nat2Z.inj_succ, Z.pow_succ_r in Hp by lia.
    destruct p as [p|p|]; cbn [digits2_pos]; [| |lia];
      specialize (IH p ltac:(lia)); lia.
Qed.

End Integers.

Section Bridge.

Lemma leb_zero_SF (x : number) :
  (0 <=? x)%float = SFleb (S754_zero false) (Prim2SF x).
Proof. now rewrite leb_spec. Qed.

Lemma is_finite_SF (x : number) :
  is_finite x = true -> sf_finite (Prim2SF x) = true.
Proof.
  unfold is_finite, is_nan, is_infinity.
  rewrite !FloatAxioms.eqb_spec, FloatAxioms.abs_spec.
  change (Prim2SF infinity) with (S754_infinity false).
  destruct (Prim2SF x) as [s|s| |s m e]; try reflexivity.
  - destruct s; cbn; discriminate.
  - cbn. discriminate.
Qed.

Lemma sf_finite_not_nan (x : spec_float) : sf_finite x = true -> x <> S754_nan.
Proof. now destruct x. Qed.

End Bridge.

End FloatSign.

(* ===================================================================== *)
(** ** The period search *)
(* ===================================================================== *)

Section BLS.

Local Open Scope float_scope.
Import FloatOrder.

Lemma num_at_app_middle (pre : list number) (f : number) (fs : list number) :
  num_at (pre ++ f :: fs) (Z.of_nat (length pre + 0)) = f.
Proof.
  unfold num_at, idx.
  destruct (Z.ltb_spec (Z.of_nat (length pre + 0)) 0); [lia|].
  rewrite Nat2Z.id, Nat.add_0_r.
  rewrite nth_error_app2 by lia. now rewrite Nat.sub_diag.
Qed.



(** What a loop that keeps a triple only when its score is strictly above
    the best so far ends with, for any triples [c 0 .. c (n-1)]. *)
Lemma keep_best (c : nat -> BLSResult) (n : nat) :
  let r := fold_left (fun best i => if score best <? score (c i) then c i else best)
                     (seq 0 n) no_detection in
  (r = no_detection /\ forall j, (j < n)%nat -> (0 <? score (c j)) = false)
  \/ (exists i, (i < n)%nat /\ r = c i /\
        (0 <? score (c i)) = true /\
        (forall j, (j < i)%nat -> (score (c i) <=? score (c j)) = false) /\
        (forall j, (j < n)%nat -> (score (c i) <? score (c j)) = false)).
Proof.
  induction n as [|n IH]; cbn zeta in *.
  - left. split; [reflexivity|]. intros j Hj. lia.
  - rewrite seq_S, fold_left_app. cbn [fold_left Nat.add].
    destruct IH as [[-> Hnone]|(i & Hi & -> & Hpos & Hearlier & Hall)].
    + cbn [score no_detection].
      destruct (0 <? score (c n)) eqn:Hn.
      * right. exists n. repeat split; [lia|assumption| |].
        -- intros j Hj.
           destruct (score (c n) <=? score (c j)) eqn:E; [|reflexivity].
           specialize (Hnone j ltac:(lia)).
           rewrite (ltb_leb_trans _ _ _ Hn E) in Hnone. discriminate.
        -- intros j Hj.
           destruct (Nat.eq_dec j n) as [->|Hne]; [apply ltb_irrefl|].
           destruct (score (c n) <? score (c j)) eqn:E; [|reflexivity].
           specialize (Hnone j ltac:(lia)).
           rewrite (ltb_trans _ _ _ Hn E) in Hnone. discriminate.
      * left. split; [reflexivity|]. intros j Hj.
        destruct (Nat.eq_dec j n) as [->|Hne]; [assumption|].
        apply Hnone. lia.
    + destruct (score (c i) <? score (c n)) eqn:Hn.
      * right. exists n. repeat split; [lia| | |].
        -- exact (ltb_trans _ _ _ Hpos Hn).
        -- intros j Hj.
           destruct (score (c n) <=? score (c j)) eqn:E; [|reflexivity].
           pose proof (ltb_leb_trans _ _ _ Hn E) as F.
           rewrite (Hall j ltac:(lia)) in F. discriminate.
        -- intros j Hj.
           destruct (Nat.eq_dec j n) as [->|Hne]; [apply ltb_irrefl|].
           destruct (score (c n) <? score (c j)) eqn:E; [|reflexivity].
           pose proof (ltb_trans _ _ _ Hn E) as F.
           rewrite (Hall j ltac:(lia)) in F. discriminate.
      * right. exists i. repeat split; [lia|assumption|assumption|].
        intros j Hj.
        destruct (Nat.eq_dec j n) as [->|Hne]; [assumption|].
        apply Hall. lia.
Qed.

Lemma calculateBLS_fold (data : LightCurveData) :
  calculateBLS data =
  fold_left (fun best i => if score best <? score (evaluated data i)
                           then evaluated data i else best)
            (seq 0 numPeriods) no_detection.
Proof.
  unfold calculateBLS.
  change {| period := 0; depth := 0; score := 0 |} with no_detection.
  generalize no_detection. generalize (seq 0 numPeriods).
  induction l as [|i l IH]; intros best; [reflexivity|].
  cbn [fold_left]. rewrite IH. f_equal.
  unfold bls_step, evaluated. cbn [score].
  now destruct (evaluatePeriod data (candidate data i)).
Qed.

(** The result of the search, on the triples the source computes. *)
Lemma calculateBLS_best (data : LightCurveData) :
  (calculateBLS data = no_detection /\
     forall j, (j < numPeriods)%nat -> (0 <? score (evaluated data j)) = false)
  \/ (exists i, (i < numPeriods)%nat /\ calculateBLS data = evaluated data i /\
        (0 <? score (evaluated data i)) = true /\
        (forall j, (j < i)%nat ->
                   (score (evaluated data i) <=? score (evaluated data j)) = false) /\
        (forall j, (j < numPeriods)%nat ->
                   (score (evaluated data i) <? score (evaluated data j)) = false)).
Proof.
  rewrite calculateBLS_fold. exact (keep_best (evaluated data) numPeriods).
Qed.

End BLS.

Section PeriodSign.

Local Open Scope float_scope.
Import FloatSign.

Lemma Prim2SF_of_uint63_signed (n : Uint63.int) :
  signed_as false (Prim2SF (of_uint63 n)) = true.
Proof.
  rewrite of_uint63_spec.
  pose proof (Uint63.to_Z_bounded n) as Hn.
  destruct (Uint63.to_Z n) as [|q|q]; [reflexivity| |lia].
  apply binary_round_signed.
Qed.

(** Turning a rounded positive mantissa back into a number keeps it from
    being negative or [NaN]. *)
Lemma SF2Prim_round_signed (r : positive) (e : Z) :
  signed_as false (Prim2SF (SF2Prim (binary_round prec emax false r e))) = true.
Proof.
  pose proof (binary_round_signed prec emax false r e) as Hs.
  destruct (binary_round prec emax false r e) as [[]|[]| |[] m' e'];
    try discriminate; try reflexivity.
  cbn [SF2Prim]. rewrite Z_ldexp_spec.
  pose proof (Prim2SF_of_uint63_signed (Uint63.of_Z (Z.pos m'))) as Hm.
  destruct (Prim2SF (of_uint63 (Uint63.of_Z (Z.pos m')))) as [[]|[]| |[] m2 e2];
    try discriminate; try reflexivity.
  cbn [SFldexp]. apply binary_round_signed.
Qed.

(** The remainder of a finite time that is not below 0, by a finite
    period, is not negative and not [NaN]. *)
Lemma rem_signed (t p : number) (sp : bool) (mp : positive) (ep : Z) :
  sf_finite (Prim2SF t) = true ->
  SFleb (S754_zero false) (Prim2SF t) = true ->
  Prim2SF p = S754_finite sp mp ep ->
  exists s, Prim2SF (rem t p) = S754_zero s
            \/ signed_as false (Prim2SF (rem t p)) = true.
Proof.
  intros Hfin Hpos Hp. unfold rem. rewrite Hp.
  destruct (Prim2SF t) as [st|st| |st mt et] eqn:Ht; try discriminate.
  - exists st. left. exact Ht.
  - destruct st; [discriminate|].
    set (e := Z.min et ep).
    pose proof (Z.mod_pos_bound (Z.pos mt * 2 ^ (et - e)) (Z.pos mp * 2 ^ (ep - e))) as Hr.
    assert (0 < Z.pos mp * 2 ^ (ep - e))%Z as Hy
      by (apply Z.mul_pos_pos; [lia|apply Z.pow_pos_nonneg; lia]).
    specialize (Hr Hy).
    destruct ((Z.pos mt * 2 ^ (et - e)) mod (Z.pos mp * 2 ^ (ep - e)))%Z
      as [|r|r]; [| |lia].
    + exists false. now left.
    + exists false. right. cbn [cond_Zopp binary_normalize].
      apply SF2Prim_round_signed.
Qed.









End PeriodSign.

Section BLSClaims.

Local Open Scope float_scope.



(** When the span of the times is finite the first candidate of the grid
    is [minPeriod] itself, whatever [maxPeriod] is. *)
Lemma candidate_first (data : LightCurveData) :
  is_finite (maxPeriod data - minPeriod) = true -> candidate data 0 = minPeriod.
Proof.
  intros Hfin. unfold candidate.
  set (d := maxPeriod data - minPeriod) in *.
  apply FloatSign.is_finite_SF in Hfin.
  apply Prim2SF_inj. rewrite add_spec, div_spec, mul_spec.
  replace (of_nat 0) with 0 by reflexivity.
  replace (of_nat numPeriods) with 100 by reflexivity.
  destruct (Prim2SF d) as [[]|[]| |[] m e]; try discriminate; reflexivity.
Qed.

(** C2, what the code does.  [calculateBLS] never compares [maxPeriod]
    with [minPeriod].  On a finite time span that puts [maxPeriod] below
    [minPeriod] the search still starts at the candidate period
    [minPeriod], which is above [maxPeriod], and if that candidate scores
    above 0 the result is a detection with a score above 0: not the report
    (score 0, period 0) of a rejected span. *)
Theorem calculateBLS_short_span_searched (data : LightCurveData) :
  is_finite (maxPeriod data - minPeriod) = true ->
  (maxPeriod data <? minPeriod) = true ->
  (0 <? snd (evaluatePeriod data minPeriod)) = true ->
  candidate data 0 = minPeriod /\
  (maxPeriod data <? candidate data 0) = true /\
  (0 <? score (calculateBLS data)) = true /\
  calculateBLS data <> no_detection.
Proof.
  intros Hfin Hshort Hfirst.
  pose proof (candidate_first data Hfin) as Hc.
  split; [exact Hc|]. split; [now rewrite Hc|].
  assert (Hpos : (0 <? score (calculateBLS data)) = true).
  { destruct (calculateBLS_best data)
      as [[_ Hnone]|(i & _ & -> & Hpos & _)]; [|exact Hpos].
    specialize (Hnone 0%nat ltac:(unfold numPeriods; lia)).
    unfold evaluated in Hnone. cbn [score] in Hnone.
    rewrite Hc, Hfirst in Hnone. discriminate Hnone. }
  split; [exact Hpos|].
  intros Hzero. rewrite Hzero in Hpos. discriminate Hpos.
Qed.

Lemma calculateBLS_short_span_searched_witness :
  (maxPeriod short_dip <? minPeriod) = true /\
  candidate short_dip 0 = minPeriod /\
  (maxPeriod short_dip <? candidate short_dip 0) = true /\
  (0 <? score (calculateBLS short_dip)) = true /\
  calculateBLS short_dip <> no_detection.
Proof.
  split; [reflexivity|].
  apply (calculateBLS_short_span_searched short_dip); reflexivity.
Defined.

(** The failing input of C2: the span of [short_dip] gives [maxPeriod] =
    1/12, below [minPeriod], and the search reports period 0.5 with score
    0.5. *)
Example short_span_reports_period :
  (maxPeriod short_dip <? minPeriod) = true /\
  calculateBLS short_dip = {| period := 0.5; depth := 0.5; score := 0.5 |} /\
  (score (calculateBLS short_dip) =? 0) = false /\
  (period (calculateBLS short_dip) =? 0) = false.
Proof. repeat split; vm_compute; reflexivity. Qed.




End BLSClaims.

(* ===================================================================== *)
(** ** Detrending and folding *)
(* ===================================================================== *)

Section Preprocessing.

Local Open Scope float_scope.

Lemma div_nan (x : number) : x / nan = nan.
Proof.
  apply Prim2SF_inj. rewrite div_spec.
  change (Prim2SF nan) with S754_nan.
  unfold SF64div, SFdiv. now destruct (Prim2SF x).
Qed.

(** The median of an empty window is [(undefined + undefined) / 2]. *)
Lemma calculateMedian_empty : calculateMedian [] = nan.
Proof. reflexivity. Qed.

Lemma imap_const_nan (g : nat -> number -> number) (l : list number) :
  (forall i f, g i f = nan) -> imap g l = map (fun _ => nan) l.
Proof.
  revert g. induction l as [|x l IH]; intros g Hg; [reflexivity|].
  cbn [imap map]. rewrite Hg. f_equal. apply IH. intros i f. apply Hg.
Qed.

(** C3, what the code does.  On a series of fewer than 20 samples the
    window size is 0 or 1, every local window is empty, its median is
    [NaN], and every element of the detrended flux is [NaN]: the output is
    not the input, and the empty window is not given the median 1.0. *)
Theorem detrendLightCurve_short_is_nan (data : LightCurveData) :
  (length (time data) < 20)%nat ->
  flux (detrendLightCurve data) = map (fun _ => nan) (flux data).
Proof.
  intros Hshort. unfold detrendLightCurve. cbn [flux].
  apply imap_const_nan. intros i f.
  assert (Hhalf : (Nat.min 101 (length (time data) / 10) / 2 = 0)%nat).
  { apply Nat.div_small.
    assert (length (time data) / 10 < 2)%nat
      by (apply Nat.Div0.div_lt_upper_bound; lia).
    lia. }
  rewrite Hhalf.
  replace (slice (flux data) _ _) with (@nil number).
  - rewrite calculateMedian_empty. apply div_nan.
  - unfold slice.
    replace (_ - _)%nat with 0%nat by lia. reflexivity.
Qed.

Lemma detrendLightCurve_short_is_nan_witness :
  (length (time three_samples) < 20)%nat /\
  flux (detrendLightCurve three_samples) = [nan; nan; nan].
Proof.
  split; [cbn; lia|].
  apply (detrendLightCurve_short_is_nan three_samples). cbn. lia.
Defined.

(** C5, what the code does at an epoch after the first sample: the
    remainder keeps the sign of [t - epoch], and the first phase is -0.5,
    outside [0, 1). *)
Theorem foldLightCurve_negative_phase :
  foldLightCurve four_samples 2 1
  = {| time := [-0.5; 0; 0; 0.5]; flux := [1; 2; 4; 3] |}
  /\ (0 <=? -0.5) = false.
Proof. split; vm_compute; reflexivity. Qed.

End Preprocessing.

(* ===================================================================== *)
(** ** The detector *)
(* ===================================================================== *)

Section DetectorClaims.

Import Detector.

(** C4, as the code has it.  [padOrTruncate] returns an array of length
    exactly [L]: of a longer input it keeps the first [L] elements and drops
    the tail ([arr.slice(0, L)]); a shorter input is followed by zeros. *)
Theorem padOrTruncate_length (arr : list number) (L : nat) :
  length (padOrTruncate arr L) = L /\
  padOrTruncate arr L =
    if (L <? length arr)%nat then firstn L arr
    else arr ++ repeat 0%float (L - length arr).
Proof.
  unfold padOrTruncate, slice.
  destruct (Nat.eqb_spec (length arr) L) as [<-|Hne].
  - rewrite Nat.ltb_irrefl, Nat.sub_diag. cbn [repeat].
    now rewrite app_nil_r.
  - destruct (Nat.ltb_spec L (length arr)) as [Hlt|Hge].
    + rewrite Nat.sub_0_r. change (skipn 0 arr) with arr.
      split; [|reflexivity].
      rewrite length_firstn. lia.
    + split; [|reflexivity].
      rewrite length_app, repeat_length. lia.
Qed.

(** C4 fails as stated: of [[1; 2; 3]] cut to length 2 the start is kept and
    the last element is dropped; the start is not what is cut away. *)
Lemma padOrTruncate_keeps_head :
  padOrTruncate [1; 2; 3]%float 2 = [1; 2]%float /\
  padOrTruncate [1; 2; 3]%float 2 <> skipn 1 [1; 2; 3]%float.
Proof.
  split; [reflexivity|]. intros E.
  apply (f_equal (fun l => match l with
                           | x :: _ => Leibniz.eqb x 1
                           | [] => false
                           end)) in E.
  vm_compute in E. discriminate E.
Qed.

(** A detector that has built its model evaluates a labelled set: the
    methods run on the small library. *)
Example evaluateModel_runs :
  fst (bind (buildModel 200)
         (fun _ => evaluateModel [four_samples; three_samples] [1; 0]%float)
         new_world)
  = Return {| accuracy := 0.5; precision := 0.5; recall := 1;
              f1Score := 0.66666666666666663; rocAuc := 1 |}.
Proof. vm_compute. reflexivity. Qed.

(** A detector that has built its model persists it under the path. *)
Example saveModel_persists_built_model :
  storage (snd (bind (buildModel 200) (fun _ => saveModel "localstorage://m")
                  new_world))
  = {[ "localstorage://m"%string := 200%nat ]}.
Proof. vm_compute. reflexivity. Qed.

(** C9.  [evaluateModel] on a detector whose model was never built or
    loaded throws "Model not initialized": no metrics are returned and
    nothing changes, in particular no model is built. *)
Theorem evaluateModel_uninitialized `{TensorLib}
    (testData : list LightCurveData) (testLabels : list number) (w : world) :
  model (self w) = None ->
  evaluateModel testData testLabels w = (Throw "Model not initialized", w).
Proof.
  intros Hnone. unfold evaluateModel, mbind, M_bind, bind, get_model.
  rewrite Hnone. reflexivity.
Qed.

Lemma evaluateModel_uninitialized_witness :
  model (self new_world) = None /\
  evaluateModel [four_samples] [1%float] new_world
  = (Throw "Model not initialized", new_world).
Proof.
  split; [reflexivity|].
  apply (evaluateModel_uninitialized [four_samples] [1%float] new_world).
  reflexivity.
Defined.

(** C10.  [saveModel] on a detector whose model was never built or loaded
    returns normally and changes nothing, the store included, for every
    path. *)
Theorem saveModel_uninitialized `{TensorLib} (path : string) (w : world) :
  model (self w) = None ->
  saveModel path w = (Return tt, w).
Proof.
  intros Hnone. unfold saveModel, mbind, M_bind, bind, get_model.
  rewrite Hnone. reflexivity.
Qed.

Lemma saveModel_uninitialized_witness :
  model (self new_world) = None /\
  saveModel "localstorage://exoplanet-model" new_world = (Return tt, new_world).
Proof.
  split; [reflexivity|].
  apply (saveModel_uninitialized "localstorage://exoplanet-model" new_world).
  reflexivity.
Defined.

End DetectorClaims.

(* ===================================================================== *)
(** ** The feature attributions *)
(* ===================================================================== *)

Section SHAP.

Local Open Scope float_scope.

(** Each entry consumes one value of the random source. *)
Lemma shap_fold_random baselineValues features :
  forall m r,
    snd (fold_left (shap_step baselineValues) features (m, r))
    = {| draws := draws r; drawn := drawn r + length features |}.
Proof.
  induction features as [|[k v] fs IH]; intros m r; cbn [fold_left length].
  - rewrite Nat.add_0_r. now destruct r.
  - unfold shap_step at 2, Math_random. rewrite IH. cbn [draws drawn].
    f_equal. lia.
Qed.

Lemma assign_lookup_eq (m : gmap string number) (key : string) (v : number) :
  String.eqb key "__proto__" = false -> assign m key v !! key = Some v.
Proof. intros E. unfold assign. rewrite E. apply lookup_insert_eq. Qed.

Lemma assign_lookup_ne (m : gmap string number) (key k : string) (v : number) :
  k = "__proto__"%string \/ k <> key -> assign m key v !! k = m !! k.
Proof.
  intros Hk. unfold assign. destruct (String.eqb_spec key "__proto__") as [->|Hne].
  - reflexivity.
  - apply lookup_insert_ne. destruct Hk as [->|Hk]; congruence.
Qed.

(** The loop leaves alone every key that is [__proto__] or no key of the
    features. *)
Lemma shap_fold_other baselineValues features (k : string) :
  k = "__proto__"%string \/ k ∉ map fst features ->
  forall m r,
    fst (fold_left (shap_step baselineValues) features (m, r)) !! k = m !! k.
Proof.
  induction features as [|[key v] fs IH]; intros Hk m r; [reflexivity|].
  cbn [fold_left]. unfold shap_step at 2, Math_random.
  rewrite IH.
  - apply assign_lookup_ne. destruct Hk as [->|Hk]; [now left|right].
    intros ->. apply Hk. cbn [map fst]. apply list_elem_of_here.
  - destruct Hk as [->|Hk]; [now left|right].
    intros Hin. apply Hk. cbn [map fst]. now apply list_elem_of_further.
Qed.

Lemma shap_fold_lookup baselineValues features :
  forall m r i key value,
    NoDup (map fst features) ->
    features !! i = Some (key, value) ->
    String.eqb key "__proto__" = false ->
    fst (fold_left (shap_step baselineValues) features (m, r)) !! key
    = Some ((value - baseline_of baselineValues key) * draws r (drawn r + i) * 0.5).
Proof.
  induction features as [|[k v] fs IH]; intros m r i key value Hnd Hi Hkey.
  - discriminate.
  - cbn [map fst] in Hnd. apply NoDup_cons in Hnd as [Hfresh Hnd].
    cbn [fold_left]. unfold shap_step at 2, Math_random.
    destruct i as [|i].
    + injection Hi as -> ->.
      rewrite shap_fold_other by now right.
      rewrite Nat.add_0_r. now apply assign_lookup_eq.
    + cbn [lookup list_lookup] in Hi.
      rewrite (IH _ _ i key value Hnd Hi Hkey). cbn [draws drawn].
      now replace (S (drawn r) + i)%nat with (drawn r + S i)%nat by lia.
Qed.

Lemma attribution_nan (v u : number) : (v - nan) * u * 0.5 = nan.
Proof.
  apply Prim2SF_inj. rewrite !mul_spec, sub_spec.
  change (Prim2SF nan) with S754_nan. now destruct (Prim2SF v).
Qed.

(** C8, as the code has it.  [Math.random()] is called once for every
    feature, inside the loop: the attribution of the feature at position
    [i] of the entries is [(observed - baseline) * u * 0.5] for the [i]-th
    value [u] drawn during the call, so each feature is scaled by a factor
    of its own.  A baseline that is missing or falsy counts as 0, unless
    the missing key names a member of [Object.prototype]: that member is
    then read in its place and the attribution is [NaN].  A feature named
    [__proto__] gets no attribution. *)
Theorem calculateSHAPValues_per_feature
    (features : list (string * number)) (baselineValues : gmap string number)
    (r : Random) (i : nat) (key : string) (value : number) :
  NoDup (map fst features) ->
  features !! i = Some (key, value) ->
  fst (calculateSHAPValues features baselineValues r) !! key
  = (if String.eqb key "__proto__" then None
     else Some ((value - baseline_of baselineValues key)
                * draws r (drawn r + i) * 0.5)) /\
  (baselineValues !! key = None -> inherited key = false ->
   baseline_of baselineValues key = 0) /\
  (baselineValues !! key = None -> inherited key = true ->
   (value - baseline_of baselineValues key) * draws r (drawn r + i) * 0.5 = nan).
Proof.
  intros Hnd Hi. split; [|split].
  - unfold calculateSHAPValues.
    destruct (String.eqb key "__proto__") eqn:Hkey.
    + apply String.eqb_eq in Hkey. rewrite shap_fold_other by now left.
      apply lookup_empty.
    + now apply shap_fold_lookup.
  - intros Hb Hin. unfold baseline_of. now rewrite Hb, Hin.
  - intros Hb Hin. unfold baseline_of. rewrite Hb, Hin. apply attribution_nan.
Qed.

Lemma calculateSHAPValues_per_feature_witness :
  NoDup (map fst two_features) /\
  two_features !! 1%nat = Some ("std"%string, 1) /\
  fst (calculateSHAPValues two_features ∅ zero_then_half) !! "std"%string
  = Some 0.25.
Proof.
  assert (Hnd : NoDup (map fst two_features)).
  { apply (bool_decide_unpack _). vm_compute. exact I. }
  split; [exact Hnd|]. split; [reflexivity|].
  exact (proj1 (calculateSHAPValues_per_feature two_features ∅ zero_then_half 1
                  "std"%string 1 Hnd eq_refl)).
Defined.

(** C8 fails as stated: with the same observed value and baseline for two
    features and the draws 0 and 0.5, the attributions are 0 and 0.25; no
    single factor gives both. *)
Lemma shap_no_single_factor :
  ~ exists r : number,
      (0 <=? r) = true /\ (r <? 0.5) = true /\
      forall key value, In (key, value) two_features ->
        fst (calculateSHAPValues two_features ∅ zero_then_half) !! key
        = Some ((value - baseline_of ∅ key) * r).
Proof.
  intros (r & _ & _ & Hall).
  pose proof (Hall "mean"%string 1 (or_introl eq_refl)) as Hmean.
  pose proof (Hall "std"%string 1 (or_intror (or_introl eq_refl))) as Hstd.
  vm_compute in Hmean, Hstd.
  rewrite <- Hmean in Hstd.
  apply (f_equal (fun o => match o with
                           | Some v => Leibniz.eqb v 0
                           | None => false
                           end)) in Hstd.
  vm_compute in Hstd. discriminate.
Qed.

(** A feature named after a member of [Object.prototype], with no
    baseline of its own, has the attribution [NaN]; a feature named
    [__proto__] leaves no entry. *)
Example shap_inherited_names :
  fst (calculateSHAPValues [("toString"%string, 1)] ∅ zero_then_half)
  = {[ "toString"%string := nan ]} /\
  fst (calculateSHAPValues [("__proto__"%string, 1)] ∅ zero_then_half) = ∅.
Proof. split; vm_compute; reflexivity. Qed.

End SHAP.

(* ===================================================================== *)
(** ** The feature vector *)
(* ===================================================================== *)

Section FeatureClaims.

Local Open Scope float_scope.
Import FloatSign Features.
Context `{Runtime}.

(** The length of a non-empty array is a finite positive number. *)
Lemma len_positive {A : Type} (l : list A) :
  l <> [] -> (Z.of_nat (length l) < 2 ^ 32)%Z ->
  exists m e, Prim2SF (len l) = S754_finite false m e.
Proof.
  intros Hne Hlen. unfold len, of_nat. rewrite of_uint63_spec, Uint63.of_Z_spec.
  assert (0 < Z.of_nat (length l))%Z as Hpos by (destruct l; [congruence|cbn; lia]).
  rewrite Z.mod_small
    by (split; [lia|]; apply Z.lt_trans with (1 := Hlen); reflexivity).
  destruct (Z.of_nat (length l)) as [|p|p] eqn:Ep; [lia| |lia].
  cbn [binary_normalize]. apply binary_round_integer.
  apply (digits2_pos_bound p 53).
  apply Z.lt_trans with (1 := Hlen). reflexivity.
Qed.

Lemma add_not_nan (x y : number) :
  Prim2SF x <> S754_nan -> is_finite y = true -> Prim2SF (x + y) <> S754_nan.
Proof.
  intros Hx Hy. rewrite add_spec. apply SFadd_not_nan; [assumption|].
  now apply is_finite_SF.
Qed.

Lemma sum_from_not_nan (l : list number) :
  Forall (fun f => is_finite f = true) l ->
  forall acc, Prim2SF acc <> S754_nan ->
  Prim2SF (fold_left (fun a b => a + b) l acc) <> S754_nan.
Proof.
  induction 1 as [|f l Hf _ IH]; intros acc Hacc; cbn [fold_left].
  - assumption.
  - apply IH. now apply add_not_nan.
Qed.

(** The mean of a non-empty series of finite values is not [NaN]. *)
Lemma mean_not_nan (l : list number) :
  l <> [] -> (Z.of_nat (length l) < 2 ^ 32)%Z ->
  Forall (fun f => is_finite f = true) l ->
  Prim2SF (sum l / len l) <> S754_nan.
Proof.
  intros Hne Hlen Hfin. rewrite div_spec.
  destruct (len_positive l Hne Hlen) as (m & e & ->).
  apply SFdiv_not_nan. apply sum_from_not_nan; [assumption|discriminate].
Qed.

Lemma squared_deviation_nonneg (mu f : number) :
  Prim2SF mu <> S754_nan -> is_finite f = true ->
  (0 <=? Math_pow (f - mu) 2) = true.
Proof.
  intros Hmu Hf. cbn [Math_pow]. rewrite leb_zero_SF, mul_spec.
  apply SFmul_self_nonneg. rewrite sub_spec.
  apply SFsub_not_nan; [now apply is_finite_SF|assumption].
Qed.

Lemma sum_squares_nonneg (mu : number) (l : list number) :
  Prim2SF mu <> S754_nan ->
  Forall (fun f => is_finite f = true) l ->
  forall acc, (0 <=? acc) = true ->
  (0 <=? fold_left (fun sum val => sum + Math_pow (val - mu) 2) l acc) = true.
Proof.
  intros Hmu. induction 1 as [|f l Hf _ IH]; intros acc Hacc; cbn [fold_left].
  - assumption.
  - apply IH. rewrite leb_zero_SF, add_spec. apply SFadd_nonneg.
    + now rewrite <- leb_zero_SF.
    + rewrite <- leb_zero_SF. now apply squared_deviation_nonneg.
Qed.

Lemma fold_left_add_map (g : number -> number) (l : list number) :
  forall acc,
    fold_left (fun sum val => sum + g val) l acc
    = fold_left (fun a b => a + b) (map g l) acc.
Proof. induction l as [|x l IH]; intros acc; [reflexivity|apply IH]. Qed.

Lemma sort_insert_length (x : number) (l : list number) :
  length (sort_insert x l) = S (length l).
Proof.
  induction l as [|y l IH]; [reflexivity|]. cbn [sort_insert].
  destruct (0 <? x - y); cbn [length]; [now rewrite IH|reflexivity].
Qed.

Lemma sort_length (l : list number) : length (sort l) = length l.
Proof.
  induction l as [|x l IH]; [reflexivity|].
  unfold sort in *. cbn [fold_right length]. rewrite sort_insert_length.
  now rewrite IH.
Qed.

Lemma idx_in_range {A : Type} (l : list A) (i : Z) :
  (0 <= i < Z.of_nat (length l))%Z -> exists x, idx l i = Some x.
Proof.
  intros Hi. unfold idx. destruct (Z.ltb_spec i 0); [lia|].
  destruct (nth_error l (Z.to_nat i)) eqn:E; [eauto|].
  apply nth_error_None in E. lia.
Qed.

(** C6, as the code has it.  For a non-empty series of finite flux values
    (no [NaN], no infinity), the feature vector
    has [range = max - min] on the values read from the sorted array,
    [std = sqrt(variance)], a variance that is at least 0, and that
    variance is the population variance: the sum of the squared deviations
    divided by [N]. *)
Theorem extractFeatures_invariants (lightCurve : LightCurveData) :
  flux lightCurve <> [] ->
  (Z.of_nat (length (flux lightCurve)) < 2 ^ 32)%Z ->
  Forall (fun f => is_finite f = true) (flux lightCurve) ->
  (exists lo hi,
      min (extractFeatures lightCurve) = Some lo /\
      max (extractFeatures lightCurve) = Some hi /\
      range (extractFeatures lightCurve) = hi - lo) /\
  std (extractFeatures lightCurve) = sqrt (variance (extractFeatures lightCurve)) /\
  (0 <=? variance (extractFeatures lightCurve)) = true /\
  variance (extractFeatures lightCurve) = population_variance (flux lightCurve).
Proof.
  intros Hne Hlen Hfin. unfold extractFeatures.
  cbn [min max range std variance].
  repeat split.
  - assert (0 < Z.of_nat (length (flux lightCurve)))%Z as Hpos
      by (destruct (flux lightCurve); [congruence|cbn; lia]).
    destruct (idx_in_range (sort (flux lightCurve)) 0) as [lo Hlo];
      [rewrite sort_length; lia|].
    destruct (idx_in_range (sort (flux lightCurve))
                (Z.of_nat (length (sort (flux lightCurve))) - 1)) as [hi Hhi];
      [rewrite sort_length; lia|].
    exists lo, hi. rewrite Hlo, Hhi. now repeat split.
  - destruct (len_positive (flux lightCurve) Hne Hlen) as (m & e & Hn).
    rewrite leb_zero_SF, div_spec, Hn. apply SFdiv_nonneg.
    rewrite <- leb_zero_SF. apply sum_squares_nonneg.
    + now apply mean_not_nan.
    + assumption.
    + reflexivity.
  - unfold population_variance, sum. now rewrite fold_left_add_map.
Qed.

End FeatureClaims.

Section FeatureExamples.

Local Open Scope float_scope.
Import Features.
#[local] Existing Instance example_runtime.

Lemma extractFeatures_invariants_witness :
  (exists lo hi,
      min (extractFeatures three_fluxes) = Some lo /\
      max (extractFeatures three_fluxes) = Some hi /\
      range (extractFeatures three_fluxes) = hi - lo) /\
  std (extractFeatures three_fluxes) = sqrt (variance (extractFeatures three_fluxes)) /\
  (0 <=? variance (extractFeatures three_fluxes)) = true /\
  variance (extractFeatures three_fluxes) = population_variance (flux three_fluxes).
Proof.
  apply (extractFeatures_invariants three_fluxes).
  - discriminate.
  - reflexivity.
  - repeat constructor.
Defined.

(** C6 fails as stated: on the non-empty flux that is a single infinity
    the mean is infinite, the deviation from it is [NaN], and so is the
    variance, which is then not at least 0. *)
Lemma extractFeatures_infinite_variance :
  flux infinite_flux <> [] /\
  is_nan (variance (extractFeatures infinite_flux)) = true /\
  (0 <=? variance (extractFeatures infinite_flux)) = false.
Proof. split; [discriminate|]. split; vm_compute; reflexivity. Qed.

End FeatureExamples.

(* ===================================================================== *)
(** ** The detector's methods *)
(* ===================================================================== *)

Section DetectorMethods.

Import Detector.
Context `{TensorLib} `{Runtime}.

Lemma ensure_model_present (m : LayersModel) (w : world) :
  model (self w) = Some m -> ensure_model w = (Return m, w).
Proof.
  intros Hm. unfold ensure_model, mbind, M_bind, bind, get_model.
  now rewrite Hm.
Qed.

Lemma ensure_model_absent (w : world) :
  model (self w) = None ->
  ensure_model w
  = (Return (fst (tf_compile 200 (backend w))),
     with_model (fst (tf_compile 200 (backend w)))
                (snd (tf_compile 200 (backend w))) w).
Proof.
  intros Hm. unfold ensure_model, mbind, M_bind, bind, get_model, buildModel.
  rewrite Hm. now destruct (tf_compile 200 (backend w)).
Qed.

Lemma with_model_same (m : LayersModel) (w : world) :
  model (self w) = Some m -> with_model m (backend w) w = w.
Proof.
  intros Hm. destruct w as [[mo v] b st c]. cbn in *. now subst mo.
Qed.

(** With a model in place, [predict] answers from it, or throws what the
    library throws, and changes nothing. *)
Lemma predict_present (m : LayersModel) (lc : LightCurveData) (w : world) :
  model (self w) = Some m ->
  predict lc w = (outcome_of (prediction_of m lc), w).
Proof.
  intros Hm. unfold predict, mbind, M_bind, bind.
  rewrite (ensure_model_present m w Hm).
  unfold prediction_of. fold (model_input lc).
  change (padOrTruncate (normalizeFlux (flux lc)) inputLength) with (model_input lc).
  destruct (tf_predict m (model_input lc)) as [c|e]; [|reflexivity].
  unfold computeSaliency, mbind, M_bind, bind, get_model. rewrite Hm.
  now destruct (tf_grad m (model_input lc)) as [g|e].
Qed.

Lemma abs_not_negative (x : number) : (abs x <? 0)%float = false.
Proof.
  rewrite ltb_spec, abs_spec. change (Prim2SF 0) with (S754_zero false).
  now destruct (Prim2SF x).
Qed.

(** [predict] in any world: the answer of the model in place, or of the
    model of input width 200 it builds first and keeps. *)
Lemma predict_run (lc : LightCurveData) (w : world) :
  exists m b,
    predict lc w = (outcome_of (prediction_of m lc), with_model m b w) /\
    (forall m0, model (self w) = Some m0 -> m = m0 /\ with_model m b w = w) /\
    (model (self w) = None -> (m, b) = tf_compile 200 (backend w)).
Proof.
  destruct (model (self w)) as [m0|] eqn:Hm.
  - exists m0, (backend w). rewrite (with_model_same m0 w Hm).
    split; [now apply predict_present|].
    split; [intros m1 [= <-]; now split|discriminate].
  - destruct (tf_compile 200 (backend w)) as [m b] eqn:Hc.
    exists m, b. split; [|split; [discriminate|reflexivity]].
    pose proof (predict_present m lc (with_model m b w) eq_refl) as Hp.
    rewrite <- Hp. unfold predict, mbind, M_bind, bind.
    rewrite (ensure_model_absent w Hm), Hc. cbn [fst snd].
    now rewrite (ensure_model_present m (with_model m b w) eq_refl).
Qed.

(** X16.  [predict] throws nothing of its own.  It answers from the model in
    place, or from the model of input width 200 it first builds when there
    is none: it returns whenever the library's prediction and gradient on
    the 200-wide row return, with the flag [confidence > 0.5] and no
    negative saliency value, and it throws what the library throws
    otherwise.  With a model in place nothing changes; a model built on the
    way is kept, also when the call throws.  The store and the console are
    never touched. *)
Theorem predict_outcome (lc : LightCurveData) (w : world) :
  exists m b,
    predict lc w = (outcome_of (prediction_of m lc), with_model m b w) /\
    (forall m0, model (self w) = Some m0 -> m = m0 /\ with_model m b w = w) /\
    (model (self w) = None -> (m, b) = tf_compile 200 (backend w)) /\
    (forall e, prediction_of m lc = Raise e ->
       tf_predict m (model_input lc) = Raise e \/
       tf_grad m (model_input lc) = Raise e) /\
    (forall p, prediction_of m lc = Ok p ->
       tf_predict m (model_input lc) = Ok (confidence p) /\
       (exists g, tf_grad m (model_input lc) = Ok g /\ saliency p = map abs g) /\
       isExoplanet p = (0.5 <? confidence p)%float /\
       Forall (fun s => (s <? 0)%float = false) (saliency p)).
Proof.
  destruct (predict_run lc w) as (m & b & Hrun & Hsome & Hnone).
  exists m, b. split; [exact Hrun|]. split; [exact Hsome|].
  split; [exact Hnone|]. unfold prediction_of. split.
  - intros e He.
    destruct (tf_predict m (model_input lc)) as [c|e1]; [|left; congruence].
    destruct (tf_grad m (model_input lc)) as [g|e2]; [discriminate|].
    right. congruence.
  - intros p Hp.
    destruct (tf_predict m (model_input lc)) as [c|e1]; [|discriminate].
    destruct (tf_grad m (model_input lc)) as [g|e2]; [|discriminate].
    injection Hp as <-. cbn [confidence isExoplanet saliency].
    split; [reflexivity|]. split; [now exists g|]. split; [reflexivity|].
    apply List.Forall_forall. intros s Hs. apply in_map_iff in Hs.
    destruct Hs as (x & <- & _). apply abs_not_negative.
Qed.

(** The loop of [evaluateModel] on an initialised detector whose library
    answers every test curve: it returns, and the world is unchanged. *)
Lemma evaluate_loop_present (m : LayersModel) (testLabels : list number)
    (testData : list LightCurveData) :
  forall (i : nat) (c : counts) (predictions : list number) (w : world),
    model (self w) = Some m ->
    Forall (answers m) testData ->
    exists c' predictions',
      evaluate_loop testData testLabels i c predictions w
      = (Return (c', predictions'), w).
Proof.
  induction testData as [|lc rest IH]; intros i c predictions w Hm Hall.
  - exists c, predictions. reflexivity.
  - apply Forall_cons_1 in Hall as [[p Hp] Hrest].
    cbn [evaluate_loop]. unfold mbind, M_bind, bind.
    rewrite (predict_present m lc w Hm), Hp. cbn [outcome_of].
    exact (IH (S i) _ _ w Hm Hrest).
Qed.

(** The loop stops at the first test curve the library fails on, with the
    library's exception. *)
Lemma evaluate_loop_throws (m : LayersModel) (testLabels : list number)
    (pre : list LightCurveData) (lc : LightCurveData)
    (post : list LightCurveData) (e : string) :
  forall (i : nat) (c : counts) (predictions : list number) (w : world),
    model (self w) = Some m ->
    Forall (answers m) pre ->
    prediction_of m lc = Raise e ->
    evaluate_loop (pre ++ lc :: post) testLabels i c predictions w = (Throw e, w).
Proof.
  induction pre as [|x pre IH]; intros i c predictions w Hm Hall He.
  - cbn [app evaluate_loop]. unfold mbind, M_bind, bind.
    now rewrite (predict_present m lc w Hm), He.
  - apply Forall_cons_1 in Hall as [[p Hp] Hrest].
    cbn [app evaluate_loop]. unfold mbind, M_bind, bind.
    rewrite (predict_present m x w Hm), Hp. cbn [outcome_of].
    exact (IH (S i) _ _ w Hm Hrest He).
Qed.

Lemma evaluateModel_returns (m : LayersModel)
    (testData : list LightCurveData) (testLabels : list number) (w : world) :
  model (self w) = Some m ->
  Forall (answers m) testData ->
  exists metrics, evaluateModel testData testLabels w = (Return metrics, w).
Proof.
  intros Hm Hall. unfold evaluateModel, mbind, M_bind, bind, get_model.
  rewrite Hm.
  destruct (evaluate_loop_present m testLabels testData 0
              {| truePositives := 0; trueNegatives := 0;
                 falsePositives := 0; falseNegatives := 0 |} [] w Hm Hall)
    as (c' & ps' & Hc').
  rewrite Hc'. eexists. reflexivity.
Qed.

(** X18.  [evaluateModel] on a detector that has a model changes nothing.
    It returns metrics when the library answers every test curve, and
    otherwise throws the exception the library throws on the first test
    curve it fails on. *)
Theorem evaluateModel_initialized (m : LayersModel)
    (testData : list LightCurveData) (testLabels : list number) (w : world) :
  model (self w) = Some m ->
  (Forall (answers m) testData ->
   exists metrics, evaluateModel testData testLabels w = (Return metrics, w)) /\
  (forall pre lc post e,
     testData = pre ++ lc :: post ->
     Forall (answers m) pre ->
     prediction_of m lc = Raise e ->
     evaluateModel testData testLabels w = (Throw e, w)).
Proof.
  intros Hm. split.
  - intros Hall. unfold evaluateModel, mbind, M_bind, bind, get_model.
    rewrite Hm.
    destruct (evaluate_loop_present m testLabels testData 0
                {| truePositives := 0; trueNegatives := 0;
                   falsePositives := 0; falseNegatives := 0 |} [] w Hm Hall)
      as (c' & ps' & Hc').
    rewrite Hc'. eexists. reflexivity.
  - intros pre lc post e -> Hpre He.
    unfold evaluateModel, mbind, M_bind, bind, get_model. rewrite Hm.
    now rewrite (evaluate_loop_throws m testLabels pre lc post e 0 _ [] w Hm Hpre He).
Qed.

(** A step that leaves a model in place and keeps the version tag and the
    persisted blobs. *)
Lemma run_epochs_frame (calls : list (nat * option Logs * LayersModel * Backend)) :
  forall w : world,
    model (self w) <> None ->
    model (self (snd (run_epochs calls w))) <> None /\
    keeps_version_and_store w (snd (run_epochs calls w)).
Proof.
  induction calls as [|[[[epoch logs] m] b] rest IH]; intros w Hm.
  - split; [exact Hm|now split].
  - cbn [run_epochs]. unfold mbind, M_bind, bind, put_model, onEpochEnd.
    destruct (epoch_line epoch logs) as [line|].
    + unfold console_log.
      match goal with |- context [run_epochs rest ?w1] =>
        destruct (IH w1) as [Hm' [Hv Hs]]; [discriminate|] end.
      split; [exact Hm'|]. split; [rewrite Hv|rewrite Hs]; reflexivity.
    + unfold throw. cbn [snd self model]. split; [discriminate|now split].
Qed.

Lemma trainModel_frame (trainingData : list LightCurveData) (labels : list number)
    (epochs batchSize : number) (w : world) :
  model (self (snd (trainModel trainingData labels epochs batchSize w))) <> None /\
  keeps_version_and_store w (snd (trainModel trainingData labels epochs batchSize w)).
Proof.
  unfold trainModel, mbind, M_bind, bind.
  assert (exists m0 w0, ensure_model w = (Return m0, w0) /\
                        model (self w0) <> None /\ keeps_version_and_store w w0)
    as (m0 & w0 & -> & Hm0 & Hv0 & Hs0).
  { destruct (model (self w)) as [m0|] eqn:Hm.
    - exists m0, w. rewrite (ensure_model_present m0 w Hm).
      split; [reflexivity|]. split; [congruence|now split].
    - eexists. eexists. rewrite (ensure_model_absent w Hm).
      split; [reflexivity|]. split; [discriminate|now split]. }
  destruct (tf_fit m0 _ labels epochs batchSize (backend w0))
    as [calls [[h m'] b']].
  destruct (run_epochs_frame calls w0 Hm0) as [Hm1 [Hv Hs]].
  destruct (run_epochs calls w0) as [[[]|e] w1]; cbn [snd] in Hm1, Hv, Hs.
  - unfold put_model. destruct h as [h|e]; cbn [snd self model modelVersion storage].
    + split; [discriminate|]. split; cbn; congruence.
    + unfold throw. split; [discriminate|]. split; cbn; congruence.
  - cbn [snd]. split; [exact Hm1|split; congruence].
Qed.

(** X21.  The order of calls of the training panel.  Whenever [buildModel]
    followed by [trainModel] returns, the detector holds a model and the
    version tag and the persisted blobs are as before: [evaluateModel]
    then passes its guard, and returns metrics on every test set the
    library answers for that model. *)
Theorem build_train_evaluate (trainingData : list LightCurveData)
    (labels : list number) (epochs batchSize : number) (w w1 : world)
    (h : History) :
  bind (buildModel 200)
    (fun _ => trainModel trainingData labels epochs batchSize) w
  = (Return h, w1) ->
  exists m,
    model (self w1) = Some m /\
    keeps_version_and_store w w1 /\
    forall testData testLabels,
      Forall (answers m) testData ->
      exists metrics, evaluateModel testData testLabels w1 = (Return metrics, w1).
Proof.
  unfold bind at 1. unfold buildModel at 1.
  destruct (tf_compile 200 (backend w)) as [m0 b0].
  fold (with_model m0 b0 w). intros Hrun.
  destruct (trainModel_frame trainingData labels epochs batchSize (with_model m0 b0 w))
    as [Hm [Hv Hs]].
  rewrite Hrun in Hm, Hv, Hs. cbn [snd] in Hm, Hv, Hs.
  destruct (model (self w1)) as [m|] eqn:Em; [|congruence].
  exists m. split; [reflexivity|]. split; [now split|].
  intros testData testLabels Hall.
  now apply (evaluateModel_returns m).
Qed.

(** X22.  [loadModel] never throws and always leaves a model: the stored one if
    the library can load it, and otherwise a freshly built one of input
    width 200 after the warning is logged.  The persisted blobs and the
    version tag are unchanged. *)
Theorem loadModel_total (path : string) (w : world) :
  exists w',
    loadModel path w = (Return tt, w') /\
    keeps_version_and_store w w' /\
    match tf_load path (storage w) with
    | Some m => w' = with_model m (backend w) w
    | None =>
        model (self w') = Some (fst (tf_compile 200 (backend w))) /\
        console w' = console w ++ ["No saved model found, building new model"]
    end.
Proof.
  unfold loadModel.
  destruct (tf_load path (storage w)) as [m|].
  - exists (with_model m (backend w) w). repeat split.
  - unfold buildModel. cbn [backend self storage console].
    destruct (tf_compile 200 (backend w)) as [m b].
    eexists. repeat split.
Qed.

(** X23.  A model saved under a path is the model a detector gets back by
    loading that path from the resulting store, whenever the library
    returns from a store what was last saved in it. *)
Theorem save_then_load (m : LayersModel) (path : string) (w w2 : world)
    (store' : gmap string Blob) :
  (forall m0 p st st', tf_save m0 p st = Some st' -> tf_load p st' = Some m0) ->
  model (self w) = Some m ->
  tf_save m path (storage w) = Some store' ->
  storage w2 = store' ->
  exists w1 w3,
    saveModel path w = (Return tt, w1) /\ storage w1 = store' /\
    self w1 = self w /\
    loadModel path w2 = (Return tt, w3) /\ model (self w3) = Some m.
Proof.
  intros Hlaw Hm Hsave Hstore.
  unfold saveModel, mbind, M_bind, bind, get_model. rewrite Hm, Hsave.
  eexists. exists (with_model m (backend w2) w2).
  repeat split.
  unfold loadModel. rewrite Hstore, (Hlaw m path _ _ Hsave). reflexivity.
Qed.

Lemma evaluate_loop_keeps (testLabels : list number)
    (testData : list LightCurveData) :
  forall (i : nat) (c : counts) (predictions : list number) (w : world),
    keeps_version_and_store w
      (snd (evaluate_loop testData testLabels i c predictions w)).
Proof.
  induction testData as [|lc rest IH]; intros i c predictions w.
  - now split.
  - cbn [evaluate_loop]. unfold mbind, M_bind, bind.
    destruct (predict_run lc w) as (m & b & -> & _).
    destruct (prediction_of m lc) as [p|e]; cbn [outcome_of]; [|now split].
    destruct (IH (S i)
                (tally c (isExoplanet p) (num_at testLabels (Z.of_nat i)))
                (predictions ++ [confidence p])
                (with_model m b w)) as [Hv Hs].
    split; [rewrite Hv|rewrite Hs]; reflexivity.
Qed.

(** X24.  No method changes the version tag, training included, and only
    [saveModel] writes to the persisted blobs; [saveModel] leaves the
    detector itself untouched. *)
Theorem version_and_store_kept (w : world) :
  (forall n, keeps_version_and_store w (snd (buildModel n w))) /\
  (forall td labels epochs batchSize,
      keeps_version_and_store w (snd (trainModel td labels epochs batchSize w))) /\
  (forall lc, keeps_version_and_store w (snd (predict lc w))) /\
  (forall path, keeps_version_and_store w (snd (loadModel path w))) /\
  (forall td tl, keeps_version_and_store w (snd (evaluateModel td tl w))) /\
  (forall path, self (snd (saveModel path w)) = self w).
Proof.
  split; [intros n|split; [intros td labels epochs batchSize|
    split; [intros lc|split; [intros path|split; [intros td tl|intros path]]]]].
  - unfold buildModel. destruct (tf_compile n (backend w)). now split.
  - apply trainModel_frame.
  - destruct (predict_run lc w) as (m & b & -> & _). now split.
  - unfold loadModel. destruct (tf_load path (storage w)); [now split|].
    unfold buildModel. cbn [backend self storage console].
    destruct (tf_compile 200 (backend w)). now split.
  - unfold evaluateModel, mbind, M_bind, bind, get_model.
    destruct (model (self w)); [|now split].
    pose proof (evaluate_loop_keeps tl td 0
                  {| truePositives := 0; trueNegatives := 0;
                     falsePositives := 0; falseNegatives := 0 |} [] w) as Hk.
    destruct (evaluate_loop td tl 0 _ [] w) as [[[c ps]|e] w']; exact Hk.
  - unfold saveModel, mbind, M_bind, bind, get_model.
    destruct (model (self w)) as [m|]; [|reflexivity].
    now destruct (tf_save m path (storage w)).
Qed.

End DetectorMethods.

Section DetectorExamples.

Import Detector.
#[local] Existing Instance example_runtime.

Lemma four_and_three_answered :
  Forall (@answers constant_lib 200%nat) [four_samples; three_samples].
Proof. repeat constructor; eexists; vm_compute; reflexivity. Qed.

Lemma evaluateModel_initialized_witness :
  model (self built_world) = Some 200%nat /\
  exists metrics,
    evaluateModel [four_samples; three_samples] [1; 0]%float built_world
    = (Return metrics, built_world).
Proof.
  split; [reflexivity|].
  apply (proj1 (@evaluateModel_initialized constant_lib 200%nat
                  [four_samples; three_samples] [1; 0]%float built_world eq_refl)).
  exact four_and_three_answered.
Defined.

Lemma build_train_evaluate_witness :
  exists m,
    model (self trained_world) = Some m /\
    keeps_version_and_store new_world trained_world /\
    forall testData testLabels,
      Forall (answers m) testData ->
      exists metrics,
        evaluateModel testData testLabels trained_world
        = (Return metrics, trained_world).
Proof.
  apply (@build_train_evaluate constant_lib example_runtime
           [four_samples; three_samples] [1; 0]%float 15 16 new_world
           trained_world tt).
  vm_compute. reflexivity.
Defined.

Lemma save_then_load_witness :
  exists w1 w3,
    saveModel "localstorage://exoplanet-model" built_world = (Return tt, w1) /\
    storage w1 = {[ "localstorage://exoplanet-model"%string := 200%nat ]} /\
    self w1 = self built_world /\
    loadModel "localstorage://exoplanet-model"
      (@Build_world constant_lib fresh tt
         {[ "localstorage://exoplanet-model"%string := 200%nat ]} [])
    = (Return tt, w3) /\
    model (self w3) = Some 200%nat.
Proof.
  apply (@save_then_load constant_lib 200%nat "localstorage://exoplanet-model"
           built_world
           (@Build_world constant_lib fresh tt
              {[ "localstorage://exoplanet-model"%string := 200%nat ]} [])
           {[ "localstorage://exoplanet-model"%string := 200%nat ]}).
  - intros m0 p st st' [= <-]. apply lookup_insert_eq.
  - reflexivity.
  - reflexivity.
  - reflexivity.
Defined.

(** On a detector built for another input width the library throws on the
    200-wide row, and so do [predict] and [evaluateModel]. *)
Example predict_other_width_throws :
  fst (predict four_samples narrow_world)
  = Throw "Error when checking input shape" /\
  fst (evaluateModel [four_samples] [1%float] narrow_world)
  = Throw "Error when checking input shape".
Proof. split; vm_compute; reflexivity. Qed.

(** Training on a single curve, for which the library hands over logs
    without a loss, throws in the callback; training on no curve throws in
    the library. *)
Example trainModel_small_sets_throw :
  fst (trainModel [four_samples] [1%float] 15 16 built_world)
  = Throw toFixed_of_undefined /\
  fst (trainModel [] [] 15 16 built_world)
  = Throw "tensor2d() requires shape to be provided".
Proof. split; vm_compute; reflexivity. Qed.

End DetectorExamples.

(* ===================================================================== *)
(** ** Further properties of the processing functions *)
(* ===================================================================== *)

Section Processing.

Local Open Scope float_scope.
Import FloatSign.

(** X1.  Detrending keeps the time axis and the number of flux values. *)
Theorem detrendLightCurve_keeps_axis (data : LightCurveData) :
  time (detrendLightCurve data) = time data /\
  length (flux (detrendLightCurve data)) = length (flux data).
Proof.
  unfold detrendLightCurve. cbn [time flux]. split; [reflexivity|].
  apply length_imap.
Qed.

(** X2.  [normalizeFlux] never divides by 0 or by [NaN]: every output is
    [(f - mean) / d], where [mean] is the sum of the values divided by
    their number and the divisor [d] is the standard deviation (the square
    root of the population variance), replaced by 1 when it is 0 or [NaN];
    the array keeps its length. *)
Theorem normalizeFlux_divisor (flux : list number) :
  let mean := sum flux / len flux in
  let std := sqrt (population_variance flux) in
  let d := if is_nan std || is_zero std then 1 else std in
  normalizeFlux flux = map (fun f => (f - mean) / d) flux /\
  is_nan d = false /\ is_zero d = false /\
  length (normalizeFlux flux) = length flux.
Proof.
  cbn zeta. unfold normalizeFlux, population_variance, sum.
  rewrite <- (fold_left_add_map
                (fun f => (f - fold_left (fun a b => a + b) flux 0 / len flux)
                          * (f - fold_left (fun a b => a + b) flux 0 / len flux))).
  change (fun sum0 val : number =>
            sum0 + (val - fold_left (fun a b => a + b) flux 0 / len flux)
                   * (val - fold_left (fun a b => a + b) flux 0 / len flux))
    with (fun sum0 val : number =>
            sum0 + Math_pow (val - fold_left (fun a b => a + b) flux 0 / len flux) 2).
  set (std := sqrt _). unfold or_else, truthy.
  destruct (is_nan std) eqn:En; cbn [orb negb].
  - repeat split. apply length_map.
  - destruct (is_zero std) eqn:Ez; cbn [negb].
    + repeat split. apply length_map.
    + repeat split; try assumption. apply length_map.
Qed.

Lemma filter_indices (P : number -> bool) (l : list number) :
  forall k : nat,
    let found :=
      map fst (List.filter (fun iv => P (snd iv)) (imap (fun i x => (k + i, x)%nat) l)) in
    StronglySorted lt found /\
    forall j, In j found <->
              (k <= j)%nat /\ exists v, nth_error l (j - k) = Some v /\ P v = true.
Proof.
  induction l as [|x l IH]; intros k; cbn zeta.
  - cbn. split; [constructor|]. intros j. split; [tauto|].
    intros (_ & v & Hv & _). now destruct (j - k)%nat.
  - cbn [imap List.filter snd].
    rewrite (imap_ext _ (fun i y => (S k + i, y)%nat))
      by (intros i y _; unfold compose; f_equal; lia).
    destruct (IH (S k)) as [Hsorted Hin]. cbn zeta in Hsorted, Hin.
    assert (Hrest : forall j,
               In j (map fst (List.filter (fun iv => P (snd iv))
                                (imap (fun i y => (S k + i, y)%nat) l))) <->
               (k < j)%nat /\ exists v, nth_error (x :: l) (j - k) = Some v /\ P v = true).
    { intros j. rewrite Hin. split.
      - intros (Hj & v & Hv & HP). split; [lia|]. exists v. split; [|assumption].
        replace (j - k)%nat with (S (j - S k)) by lia. exact Hv.
      - intros (Hj & v & Hv & HP). split; [lia|]. exists v. split; [|assumption].
        replace (j - k)%nat with (S (j - S k)) in Hv by lia. exact Hv. }
    destruct (P x) eqn:HPx.
    + cbn [map fst]. rewrite Nat.add_0_r. split.
      * constructor; [assumption|]. apply List.Forall_forall. intros j Hj.
        apply Hrest in Hj. lia.
      * intros j. cbn [In]. rewrite Hrest. split.
        -- intros [<-|(Hj & Hv)]; [|split; [lia|assumption]].
           split; [lia|]. exists x. rewrite Nat.sub_diag. now split.
        -- intros (Hj & v & Hv & HP).
           destruct (Nat.eq_dec k j) as [->|Hne]; [now left|right].
           split; [lia|]. now exists v.
    + split; [assumption|]. intros j. rewrite Hrest. split.
      * intros (Hj & Hv). split; [lia|assumption].
      * intros (Hj & v & Hv & HP).
        destruct (Nat.eq_dec k j) as [->|Hne].
        -- rewrite Nat.sub_diag in Hv. cbn in Hv. congruence.
        -- split; [lia|]. now exists v.
Qed.

(** X3.  [detectTransits] returns, in increasing order and without repetition,
    exactly the indices at which the normalised flux is below the
    threshold. *)
Theorem detectTransits_indices (data : LightCurveData) (threshold : number) :
  StronglySorted lt (detectTransits data threshold) /\
  forall i, In i (detectTransits data threshold) <->
            exists v, nth_error (normalizeFlux (flux data)) i = Some v /\
                      (v <? threshold) = true.
Proof.
  unfold detectTransits.
  pose proof (filter_indices (fun v => v <? threshold)
                (normalizeFlux (flux data)) 0) as [Hsorted Hin].
  cbn zeta in Hsorted, Hin.
  rewrite (imap_ext _ pair) in Hsorted, Hin by reflexivity.
  split; [exact Hsorted|].
  intros i. rewrite Hin, Nat.sub_0_r. split.
  - intros (_ & Hv). exact Hv.
  - intros Hv. split; [lia|exact Hv].
Qed.

Lemma SFsqrt_not_negative (x : spec_float) :
  SFltb (SFsqrt prec emax x) (S754_zero false) = false.
Proof.
  destruct x as [[]|[]| |[] m e]; try reflexivity.
  cbn [SFsqrt]. unfold SFsqrt_core_binary.
  set (m' := match _ with Z.pos _ => _ | Z0 => _ | Z.neg _ => _ end).
  pose proof (Z.sqrtrem_sqrt m') as Hq. pose proof (Z.sqrt_nonneg m') as Hs.
  destruct (Z.sqrtrem m') as [q r]. cbn [fst] in Hq. subst q.
  pose proof (binary_round_aux_signed prec emax false (Z.sqrt m')
                (Z.min (fexp prec emax (Z.div2 (Zdigits2 (Z.pos m) + e + 1)))
                       (Z.div2 e))
                (if (r =? 0)%Z then loc_Exact
                 else loc_Inexact (if (r <=? Z.sqrt m')%Z then Lt else Gt)) Hs) as Hb.
  destruct (binary_round_aux prec emax false _ _ _) as [[]|[]| |[] mq eq];
    try discriminate; reflexivity.
Qed.

Lemma SFmul_not_negative (a b : spec_float) :
  SFltb a (S754_zero false) = false -> SFltb b (S754_zero false) = false ->
  SFltb (SFmul prec emax a b) (S754_zero false) = false.
Proof.
  destruct a as [sa|[]| |[] ma ea], b as [sb|[]| |[] mb eb];
    try discriminate; try reflexivity; intros _ _; cbn [SFmul xorb].
  pose proof (binary_round_aux_signed prec emax false (Z.pos (ma * mb))
                (ea + eb) loc_Exact ltac:(lia)) as Hb.
  destruct (binary_round_aux prec emax false _ _ _) as [[]|[]| |[] mq eq];
    try discriminate; reflexivity.
Qed.

(** X4.  The score [evaluatePeriod] returns is never negative (it may be [NaN]),
    whatever the light curve and the period. *)
Theorem evaluatePeriod_score_not_negative (data : LightCurveData) (p : number) :
  (snd (evaluatePeriod data p) <? 0) = false.
Proof.
  unfold evaluatePeriod.
  destruct (fold_left _ _ _) as [inTransit outTransit].
  destruct ((length inTransit =? 0)%nat || (length outTransit =? 0)%nat);
    [reflexivity|].
  cbn [snd]. rewrite ltb_spec, mul_spec.
  change (Prim2SF 0) with (S754_zero false).
  apply SFmul_not_negative.
  - rewrite abs_spec. now destruct (Prim2SF _).
  - rewrite sqrt_spec. apply SFsqrt_not_negative.
Qed.

(** With fewer than two sample times one of the two partitions is empty
    for every period. *)
Lemma evaluatePeriod_few_samples (data : LightCurveData) (p : number) :
  (length (time data) <= 1)%nat -> evaluatePeriod data p = (0, 0).
Proof.
  intros Hlen. unfold evaluatePeriod.
  destruct (time data) as [|t [|t' ts]]; [reflexivity| |cbn in Hlen; lia].
  cbn [map imap fold_left classify_sample].
  now destruct ((rem t p / p <? 0.1) || (0.9 <? rem t p / p)).
Qed.

(** X5.  A light curve with no sample time or a single one gives the all-zero
    triple: no period is reported. *)
Theorem calculateBLS_few_samples (data : LightCurveData) :
  (length (time data) <= 1)%nat -> calculateBLS data = no_detection.
Proof.
  intros Hlen.
  destruct (calculateBLS_best data) as [[Hzero _]|(i & _ & _ & Hpos & _)];
    [exact Hzero|].
  unfold evaluated in Hpos. cbn [score] in Hpos.
  rewrite (evaluatePeriod_few_samples data _ Hlen) in Hpos. discriminate Hpos.
Qed.

Lemma calculateBLS_few_samples_witness :
  (length (time single_sample) <= 1)%nat /\
  calculateBLS single_sample = no_detection.
Proof.
  split; [cbn; lia|].
  apply (calculateBLS_few_samples single_sample). cbn. lia.
Defined.

Lemma sort_insert_by_permutation {A : Type} (cmp : A -> A -> number) (x : A)
    (l : list A) :
  Permutation (sort_insert_by cmp x l) (x :: l).
Proof.
  induction l as [|y l IH]; [reflexivity|]. cbn [sort_insert_by].
  destruct (0 <? cmp x y); [|reflexivity].
  rewrite IH. apply perm_swap.
Qed.

Lemma sort_by_permutation {A : Type} (cmp : A -> A -> number) (l : list A) :
  Permutation (sort_by cmp l) l.
Proof.
  induction l as [|x l IH]; [reflexivity|].
  unfold sort_by in *. cbn [fold_right].
  rewrite sort_insert_by_permutation. now constructor.
Qed.

Lemma combine_fst_snd {A B : Type} (l : list (A * B)) :
  combine (map fst l) (map snd l) = l.
Proof. induction l as [|[a b] l IH]; [reflexivity|]. cbn. now rewrite IH. Qed.

Lemma imap_pair_combine (g : number -> number) (ts : list number) :
  forall (fs pre : list number),
    length ts = length fs ->
    imap (fun i t => (g t, num_at (pre ++ fs) (Z.of_nat (length pre + i)))) ts
    = combine (map g ts) fs.
Proof.
  induction ts as [|t ts IH]; intros fs pre Hlen; [reflexivity|].
  destruct fs as [|f fs]; [discriminate|]. injection Hlen as Hlen.
  cbn [imap map combine]. rewrite num_at_app_middle. f_equal.
  rewrite <- (IH fs (pre ++ [f]) Hlen).
  apply imap_ext. intros i x _. unfold compose.
  rewrite <- app_assoc. cbn [app]. rewrite length_app. cbn [length].
  do 3 f_equal. lia.
Qed.

(** X6.  Folding loses and invents no sample: the output pairs (phase, flux) are
    a rearrangement of the pairs made of each time's phase and its flux, so
    both output arrays have the input's length. *)
Theorem foldLightCurve_permutation (data : LightCurveData) (period epoch : number) :
  length (time data) = length (flux data) ->
  Permutation
    (combine (time (foldLightCurve data period epoch))
             (flux (foldLightCurve data period epoch)))
    (combine (map (fun t => rem (t - epoch) period / period) (time data))
             (flux data)) /\
  length (time (foldLightCurve data period epoch)) = length (time data) /\
  length (flux (foldLightCurve data period epoch)) = length (time data).
Proof.
  intros Hlen. unfold foldLightCurve. cbn [time flux].
  rewrite imap_fmap.
  pose proof (imap_pair_combine (fun t => rem (t - epoch) period / period)
                (time data) (flux data) [] Hlen) as E.
  cbn [app length Nat.add] in E. unfold compose. rewrite E.
  set (pairs := combine _ (flux data)).
  pose proof (sort_by_permutation (fun a b => fst a - fst b) pairs) as Hperm.
  split; [now rewrite combine_fst_snd|].
  assert (length (sort_by (fun a b => fst a - fst b) pairs) = length (time data))
    as Hl.
  { rewrite (Permutation_length Hperm). subst pairs.
    rewrite length_combine, length_map. lia. }
  now rewrite !length_map.
Qed.

Lemma foldLightCurve_permutation_witness :
  Permutation
    (combine (time (foldLightCurve four_samples 2 1))
             (flux (foldLightCurve four_samples 2 1)))
    (combine (map (fun t => rem (t - 1) 2 / 2) (time four_samples))
             (flux four_samples)) /\
  length (time (foldLightCurve four_samples 2 1)) = length (time four_samples) /\
  length (flux (foldLightCurve four_samples 2 1)) = length (time four_samples).
Proof. apply (foldLightCurve_permutation four_samples 2 1). reflexivity. Defined.

End Processing.

(* ===================================================================== *)
(** ** Further properties of the attributions and of the ranking score *)
(* ===================================================================== *)

Section Attribution.

Local Open Scope float_scope.

Lemma shap_fold_dom (baselineValues : gmap string number)
    (features : list (string * number)) :
  forall (m : gmap string number) (r : Random),
    dom (fst (fold_left (shap_step baselineValues) features (m, r)))
    = dom m ∪ list_to_set
                (List.filter (fun k => negb (String.eqb k "__proto__"))
                   (map fst features)).
Proof.
  induction features as [|[k v] fs IH]; intros m r; cbn [fold_left map fst].
  - cbn. now rewrite union_empty_r_L.
  - unfold shap_step at 2, Math_random. rewrite IH. unfold assign.
    cbn [List.filter]. destruct (String.eqb k "__proto__"); cbn [negb].
    + reflexivity.
    + rewrite dom_insert_L. cbn [list_to_set].
      now rewrite (union_comm_L {[k]}), <- union_assoc_L.
Qed.

(** X26.  The attribution object has exactly the features' keys other than
    [__proto__], whose assignment creates no entry, and the call consumes
    exactly one random value per feature (none for no feature). *)
Theorem calculateSHAPValues_keys (features : list (string * number))
    (baselineValues : gmap string number) (r : Random) :
  dom (fst (calculateSHAPValues features baselineValues r))
  = list_to_set (List.filter (fun k => negb (String.eqb k "__proto__"))
                   (map fst features)) /\
  snd (calculateSHAPValues features baselineValues r)
  = {| draws := draws r; drawn := drawn r + length features |}.
Proof.
  unfold calculateSHAPValues. split.
  - now rewrite shap_fold_dom, dom_empty_L, union_empty_l_L.
  - apply shap_fold_random.
Qed.

Lemma filter_all {A : Type} (f : A -> bool) (l : list A) :
  forallb f l = true -> List.filter f l = l.
Proof.
  induction l as [|x l IH]; [reflexivity|]. cbn [forallb List.filter].
  intros Hall. apply andb_prop in Hall as [-> Hl]. now rewrite IH.
Qed.

Lemma filter_none {A : Type} (f : A -> bool) (l : list A) :
  forallb (fun x => negb (f x)) l = true -> List.filter f l = [].
Proof.
  induction l as [|x l IH]; [reflexivity|]. cbn [forallb List.filter].
  intros Hall. apply andb_prop in Hall as [Hx Hl].
  apply negb_true_iff in Hx. rewrite Hx. now apply IH.
Qed.

(** X25.  When the labels hold a single class (all equal to 1, or none equal to
    1, or no label at all) the ranking score is the neutral 0.5, whatever
    the predictions. *)
Theorem calculateROCAUC_one_class (labels predictions : list number) :
  forallb (fun l => l =? 1) labels || forallb (fun l => negb (l =? 1)) labels = true ->
  Detector.calculateROCAUC labels predictions = 0.5.
Proof.
  intros Hone. unfold Detector.calculateROCAUC.
  apply orb_prop in Hone as [Hall|Hnone].
  - rewrite (filter_all _ labels Hall), Nat.sub_diag.
    cbn [Nat.eqb]. now rewrite orb_true_r.
  - rewrite (filter_none _ labels Hnone). reflexivity.
Qed.

End Attribution.

Section AttributionExamples.

Lemma calculateROCAUC_one_class_witness :
  Detector.calculateROCAUC [1; 1; 1]%float [0.25; 0.75; 0.5]%float = 0.5%float.
Proof.
  apply (calculateROCAUC_one_class [1; 1; 1]%float [0.25; 0.75; 0.5]%float).
  reflexivity.
Defined.

End AttributionExamples.

(* ===================================================================== *)
(** ** The sign of a rounded difference, and sorted arrays *)
(* ===================================================================== *)

Module FloatExact.

Import FloatSign.

Lemma digits2_pos_gt (p : positive) : (Z.pos p < 2 ^ Z.pos (digits2_pos p))%Z.
Proof.
  induction p as [p IH|p IH|]; cbn [digits2_pos];
    rewrite ?Pos2Z.inj_succ, ?Z.pow_succ_r by lia; [lia|lia|reflexivity].
Qed.

Lemma digits2_pos_le (p : positive) : (2 ^ (Z.pos (digits2_pos p) - 1) <= Z.pos p)%Z.
Proof.
  induction p as [p IH|p IH|]; cbn [digits2_pos];
    rewrite ?Pos2Z.inj_succ; [| |reflexivity];
    replace (Z.succ (Z.pos (digits2_pos p)) - 1)%Z
      with (Z.succ (Z.pos (digits2_pos p) - 1)) by lia;
    rewrite Z.pow_succ_r by lia; lia.
Qed.

Lemma shr_1_half (mrs : shr_record) :
  (0 <= shr_m mrs)%Z -> shr_m (shr_1 mrs) = (shr_m mrs / 2)%Z.
Proof.
  destruct mrs as [m r s]. cbn [shr_m]. intros Hm.
  rewrite <- Z.div2_div.
  destruct m as [|[p|p|]|p]; try reflexivity. lia.
Qed.

Lemma iter_shr_1_div (n : positive) :
  forall mrs, (0 <= shr_m mrs)%Z ->
    shr_m (SpecFloat.iter_pos shr_1 n mrs) = (shr_m mrs / 2 ^ Z.pos n)%Z.
Proof.
  induction n as [n IH|n IH|]; intros mrs Hm; cbn [SpecFloat.iter_pos].
  - pose proof (shr_1_nonneg mrs Hm) as H1.
    pose proof (iter_pos_shr_1_nonneg n _ H1) as H2.
    rewrite (IH _ H2), (IH _ H1), (shr_1_half _ Hm).
    assert (0 < 2 ^ Z.pos n)%Z as Hp by (apply Z.pow_pos_nonneg; lia).
    rewrite !Z.div_div by lia.
    f_equal. rewrite Pos2Z.inj_xI.
    replace (2 * Z.pos n + 1)%Z with (1 + Z.pos n + Z.pos n)%Z by lia.
    rewrite !Z.pow_add_r by lia. change (2 ^ 1)%Z with 2%Z. lia.
  - pose proof (iter_pos_shr_1_nonneg n _ Hm) as H2.
    assert (0 < 2 ^ Z.pos n)%Z as Hp by (apply Z.pow_pos_nonneg; lia).
    rewrite (IH _ H2), (IH _ Hm), Z.div_div by lia.
    f_equal. rewrite <- Z.pow_add_r by lia. f_equal. lia.
  - rewrite (shr_1_half _ Hm). reflexivity.
Qed.

(** Above the least exponent, shifting a positive mantissa to its format
    exponent leaves it positive. *)
Lemma shr_fexp_positive (p : positive) (e : Z) (l : location) :
  (SpecFloat.emin prec emax <= e)%Z ->
  (0 < shr_m (fst (shr_fexp prec emax (Z.pos p) e l)))%Z /\
  (SpecFloat.emin prec emax <= snd (shr_fexp prec emax (Z.pos p) e l))%Z.
Proof.
  intros He. unfold shr_fexp, shr. cbn [Zdigits2].
  pose proof (digits2_pos_le p) as Hlow.
  destruct (fexp prec emax (Z.pos (digits2_pos p) + e) - e)%Z as [|k|k] eqn:Ek;
    cbn [fst snd]; rewrite ?shr_record_of_loc_m; try (split; lia).
  assert (Z.pos k = Z.pos (digits2_pos p) - 53)%Z as Hk.
  { revert Ek He. unfold fexp, SpecFloat.emin, prec, emax. lia. }
  split.
  - rewrite iter_shr_1_div by (rewrite shr_record_of_loc_m; lia).
    rewrite shr_record_of_loc_m.
    apply Z.div_str_pos. split; [apply Z.pow_pos_nonneg; lia|].
    apply Z.le_trans with (2 := Hlow). apply Z.pow_le_mono_r; lia.
  - lia.
Qed.

Lemma round_nearest_even_positive (m : Z) (l : location) :
  (0 < m)%Z -> (0 < round_nearest_even m l)%Z.
Proof.
  intros Hm. unfold round_nearest_even.
  destruct l as [|[]]; try destruct (Z.even m); lia.
Qed.

(** Above the least exponent, rounding a positive mantissa never gives a
    zero: the result is finite or infinite, with the sign asked for. *)
Lemma binary_round_aux_nonzero (s : bool) (p : positive) (e : Z) (l : location) :
  (SpecFloat.emin prec emax <= e)%Z ->
  nonzero_signed s (binary_round_aux prec emax s (Z.pos p) e l) = true.
Proof.
  intros He. unfold binary_round_aux.
  destruct (shr_fexp_positive p e l He) as [H1 He'].
  destruct (shr_fexp prec emax (Z.pos p) e l) as [mrs' e']. cbn [fst snd] in *.
  pose proof (round_nearest_even_positive _ (loc_of_shr_record mrs') H1) as Hr.
  destruct (round_nearest_even (shr_m mrs') (loc_of_shr_record mrs'))
    as [|q|q]; [lia| |lia].
  destruct (shr_fexp_positive q e' loc_Exact He') as [H2 _].
  destruct (shr_fexp prec emax (Z.pos q) e' loc_Exact) as [mrs'' e''].
  cbn [fst] in H2.
  destruct (shr_m mrs'') as [|m|m]; [lia| |lia].
  destruct (e'' <=? emax - prec)%Z; apply eqb_reflx.
Qed.

Lemma binary_round_nonzero (s : bool) (p : positive) (e : Z) :
  (SpecFloat.emin prec emax <= e)%Z ->
  nonzero_signed s (binary_round prec emax s p e) = true.
Proof.
  intros He. unfold binary_round, shl_align.
  set (e' := fexp prec emax (Z.pos (digits2_pos p) + e)).
  assert (SpecFloat.emin prec emax <= e')%Z
    by (subst e'; unfold fexp; lia).
  destruct (e' - e)%Z; now apply binary_round_aux_nonzero.
Qed.

(** What validity says of a finite number: the exponent is at least the
    least one, the mantissa has at most 53 digits, and exactly 53 above the
    least exponent. *)
Lemma valid_finite (s : bool) (m : positive) (e : Z) :
  valid_binary (S754_finite s m e) = true ->
  (SpecFloat.emin prec emax <= e)%Z /\
  (Z.pos (digits2_pos m) <= 53)%Z /\
  (SpecFloat.emin prec emax < e -> Z.pos (digits2_pos m) = 53)%Z.
Proof.
  cbn [SpecFloat.valid_binary]. unfold bounded, canonical_mantissa.
  intros Hv. apply andb_prop in Hv as [Hc _]. apply Z.eqb_eq in Hc.
  revert Hc. unfold fexp, SpecFloat.emin, prec, emax. lia.
Qed.

Lemma iter_xO_value (m d : positive) :
  Z.pos (Pos.iter xO m d) = (Z.pos m * 2 ^ Z.pos d)%Z.
Proof.
  induction d as [|d IH] using Pos.peano_ind.
  - cbn [Pos.iter]. lia.
  - rewrite Pos.iter_succ, Pos2Z.inj_xO, IH, Pos2Z.inj_succ, Z.pow_succ_r by lia.
    lia.
Qed.

Lemma shl_align_value (m : positive) (e ez : Z) :
  (ez <= e)%Z ->
  Z.pos (fst (shl_align m e ez)) = (Z.pos m * 2 ^ (e - ez))%Z.
Proof.
  intros Hle. unfold shl_align.
  destruct (ez - e)%Z as [|d|d] eqn:Ed; cbn [fst].
  - replace (e - ez)%Z with 0%Z by lia. lia.
  - lia.
  - rewrite iter_xO_value. f_equal. f_equal. lia.
Qed.

(** Two valid finite numbers of the same sign, aligned on the smaller
    exponent, compare as their exponents and then their mantissas do. *)
Lemma aligned_compare (mx my : positive) (ex ey : Z) (sx sy : bool) :
  valid_binary (S754_finite sx mx ex) = true ->
  valid_binary (S754_finite sy my ey) = true ->
  ((Z.pos (fst (shl_align mx ex (Z.min ex ey)))
    ?= Z.pos (fst (shl_align my ey (Z.min ex ey))))%Z
   = match (ex ?= ey)%Z with
     | Lt => Lt
     | Gt => Gt
     | Eq => (mx ?= my)%positive
     end).
Proof.
  intros Hx Hy.
  destruct (valid_finite _ _ _ Hx) as (Hex & Hdx & Hfx).
  destruct (valid_finite _ _ _ Hy) as (Hey & Hdy & Hfy).
  rewrite !shl_align_value by lia.
  pose proof (digits2_pos_gt mx) as Hgx. pose proof (digits2_pos_le mx) as Hlx.
  pose proof (digits2_pos_gt my) as Hgy. pose proof (digits2_pos_le my) as Hly.
  assert (Hpow : forall d, (1 <= d -> 2 <= 2 ^ d)%Z).
  { intros d Hd. change 2%Z with (2 ^ 1)%Z at 1. apply Z.pow_le_mono_r; lia. }
  assert (H53 : forall d, (d <= 53 -> 2 ^ d <= 2 ^ 53)%Z)
    by (intros d Hd; apply Z.pow_le_mono_r; lia).
  destruct (Z.compare_spec ex ey) as [->|Hlt|Hgt].
  - rewrite Z.min_id, Z.sub_diag, !Z.mul_1_r. reflexivity.
  - rewrite Z.min_l, Z.sub_diag, Z.mul_1_r by lia.
    apply Z.compare_lt_iff.
    specialize (Hfy ltac:(lia)). rewrite Hfy in Hly.
    specialize (Hpow (ey - ex)%Z ltac:(lia)). specialize (H53 _ Hdx).
    change (2 ^ (53 - 1))%Z with 4503599627370496%Z in Hly.
    change (2 ^ 53)%Z with 9007199254740992%Z in H53. nia.
  - rewrite Z.min_r, Z.sub_diag, Z.mul_1_r by lia.
    apply Z.compare_gt_iff.
    specialize (Hfx ltac:(lia)). rewrite Hfx in Hlx.
    specialize (Hpow (ex - ey)%Z ltac:(lia)). specialize (H53 _ Hdy).
    change (2 ^ (53 - 1))%Z with 4503599627370496%Z in Hlx.
    change (2 ^ 53)%Z with 9007199254740992%Z in H53. nia.
Qed.

Lemma nonzero_signed_above_zero (x : spec_float) :
  nonzero_signed false x = true -> SFltb (S754_zero false) x = true.
Proof. now destruct x as [[]|[]| |[] m e]. Qed.

Lemma nonzero_signed_below_zero (x : spec_float) :
  nonzero_signed true x = true -> SFltb (S754_zero false) x = false.
Proof. now destruct x as [[]|[]| |[] m e]. Qed.

Lemma binary_normalize_above_zero (D ez : Z) :
  (SpecFloat.emin prec emax <= ez)%Z ->
  SFltb (S754_zero false) (binary_normalize prec emax D ez false) = (0 <? D)%Z.
Proof.
  intros Hez. destruct D as [|d|d]; cbn [binary_normalize]; [reflexivity| |].
  - now apply nonzero_signed_above_zero, binary_round_nonzero.
  - now apply nonzero_signed_below_zero, binary_round_nonzero.
Qed.

(** The rounded difference of two numbers that are not [NaN] is above 0
    exactly when the second is below the first. *)
Lemma SFsub_above_zero (x y : spec_float) :
  valid_binary x = true -> valid_binary y = true ->
  x <> S754_nan -> y <> S754_nan ->
  SFltb (S754_zero false) (SFsub prec emax x y) = SFltb y x.
Proof.
  intros Vx Vy Hx Hy.
  destruct x as [sx|sx| |sx mx ex]; [| |congruence|];
    (destruct y as [sy|sy| |sy my ey]; [| |congruence|]);
    try (destruct sx, sy; reflexivity).
  pose proof (aligned_compare mx my ex ey sx sy Vx Vy) as HXY.
  destruct (valid_finite _ _ _ Vx) as (Hex & _).
  destruct (valid_finite _ _ _ Vy) as (Hey & _).
  cbn [SFsub]. rewrite binary_normalize_above_zero by lia.
  unfold SFltb, SFcompare.
  change (Pos.compare_cont Eq my mx) with (my ?= mx)%positive.
  rewrite (Z.compare_antisym ex ey), (Pos.compare_antisym mx my).
  set (X := Z.pos (fst (shl_align mx ex (Z.min ex ey)))) in *.
  set (Y := Z.pos (fst (shl_align my ey (Z.min ex ey)))) in *.
  assert (0 < X)%Z by (subst X; lia). assert (0 < Y)%Z by (subst Y; lia).
  assert (Hcases : (X < Y /\ (X ?= Y) = Lt \/ X = Y /\ (X ?= Y) = Eq
                    \/ Y < X /\ (X ?= Y) = Gt)%Z).
  { destruct (Z.compare_spec X Y); [right; left|left|right; right]; now split. }
  unfold cond_Zopp.
  destruct sx, sy;
    match goal with
    | |- (0 <? ?D)%Z = _ => destruct (Z.ltb_spec 0 D) as [HD|HD]
    end;
    destruct Hcases as [[Hc E]|[[Hc E]|[Hc E]]]; try lia;
    rewrite E in HXY;
    destruct (ex ?= ey)%Z; try discriminate HXY; try reflexivity;
    destruct (mx ?= my)%positive; try discriminate HXY; reflexivity.
Qed.

End FloatExact.

Section OrderOnNumbers.

Local Open Scope float_scope.
Import FloatExact FloatOrder.

Lemma not_nan_SF (x : number) : is_nan x = false -> Prim2SF x <> S754_nan.
Proof.
  unfold is_nan. rewrite FloatAxioms.eqb_spec. intros H E. rewrite E in H.
  discriminate H.
Qed.

(** On numbers that are not [NaN], the comparator [a - b] of the sorts is
    above 0 exactly when [b < a]. *)
Lemma sub_above_zero (x y : number) :
  is_nan x = false -> is_nan y = false -> (0 <? x - y) = (y <? x).
Proof.
  intros Hx Hy. rewrite !ltb_spec, sub_spec.
  change (Prim2SF 0) with (S754_zero false).
  apply SFsub_above_zero; auto using Prim2SF_valid, not_nan_SF.
Qed.

Lemma SFleb_negb_ltb (x y : spec_float) :
  x <> S754_nan -> y <> S754_nan -> SFleb x y = negb (SFltb y x).
Proof.
  intros Hx Hy. unfold SFleb, SFltb, SFcompare.
  destruct x as [[]|[]| |[] mx ex], y as [[]|[]| |[] my ey];
    try congruence; try reflexivity;
    rewrite (Z.compare_antisym ex ey);
    change (Pos.compare_cont Eq my mx) with (my ?= mx)%positive;
    rewrite (Pos.compare_antisym mx my);
    change (Pos.compare_cont Eq mx my) with (mx ?= my)%positive;
    destruct (ex ?= ey)%Z; try reflexivity;
    destruct (mx ?= my)%positive; reflexivity.
Qed.

Lemma SFleb_trans (x y z : spec_float) :
  SFleb x y = true -> SFleb y z = true -> SFleb x z = true.
Proof.
  unfold SFleb, SFcompare.
  destruct x as [[]|[]| |[] mx ex], y as [[]|[]| |[] my ey],
           z as [[]|[]| |[] mz ez];
    simpl; try congruence; order_cases.
Qed.

Lemma leb_negb_ltb (x y : number) :
  is_nan x = false -> is_nan y = false -> (x <=? y) = negb (y <? x).
Proof.
  intros Hx Hy. rewrite leb_spec, ltb_spec.
  apply SFleb_negb_ltb; now apply not_nan_SF.
Qed.

Lemma leb_trans (x y z : number) :
  (x <=? y) = true -> (y <=? z) = true -> (x <=? z) = true.
Proof. rewrite !leb_spec. apply SFleb_trans. Qed.

Lemma leb_refl (x : number) : is_nan x = false -> (x <=? x) = true.
Proof.
  intros Hx. rewrite (leb_negb_ltb x x Hx Hx), ltb_irrefl. reflexivity.
Qed.

End OrderOnNumbers.

Section Sorting.

Local Open Scope float_scope.

Context {A : Type} (key : A -> number).

Lemma sort_insert_by_sorted (x : A) (l : list A) :
  is_nan (key x) = false ->
  Forall (fun a => is_nan (key a) = false) l ->
  StronglySorted (fun a b => (key a <=? key b) = true) l ->
  StronglySorted (fun a b => (key a <=? key b) = true)
    (sort_insert_by (fun a b => key a - key b) x l).
Proof.
  intros Hx Hl Hs. induction l as [|y l IH]; cbn [sort_insert_by].
  - repeat constructor.
  - apply Forall_cons_1 in Hl as [Hy Hl].
    apply StronglySorted_inv in Hs as [Hs Hall].
    rewrite (sub_above_zero (key x) (key y) Hx Hy).
    destruct (key y <? key x) eqn:Hlt.
    + constructor; [now apply IH|].
      apply (Permutation_Forall
               (Permutation_sym (sort_insert_by_permutation _ x l))).
      constructor; [now apply FloatOrder.ltb_leb|assumption].
    + assert ((key x <=? key y) = true) as Hle
        by (rewrite (leb_negb_ltb _ _ Hx Hy), Hlt; reflexivity).
      constructor; [now constructor|].
      constructor; [assumption|].
      revert Hall. apply List.Forall_impl.
      intros z Hz. exact (leb_trans _ _ _ Hle Hz).
Qed.

Lemma sort_by_sorted (l : list A) :
  Forall (fun a => is_nan (key a) = false) l ->
  StronglySorted (fun a b => (key a <=? key b) = true)
    (sort_by (fun a b => key a - key b) l).
Proof.
  induction 1 as [|x l Hx Hl IH]; [constructor|].
  unfold sort_by in *. cbn [fold_right].
  apply sort_insert_by_sorted; [assumption| |assumption].
  apply (Permutation_Forall
           (Permutation_sym (sort_by_permutation (fun a b => key a - key b) l))).
  exact Hl.
Qed.

End Sorting.

Section SortedArrays.

Local Open Scope float_scope.
Import FloatSign.

Lemma sort_insert_as_by (x : number) (l : list number) :
  sort_insert x l = sort_insert_by (fun a b => a - b) x l.
Proof.
  induction l as [|y l IH]; [reflexivity|]. cbn [sort_insert sort_insert_by].
  now rewrite IH.
Qed.

Lemma sort_as_sort_by (l : list number) : sort l = sort_by (fun a b => a - b) l.
Proof.
  induction l as [|x l IH]; [reflexivity|].
  unfold sort, sort_by in *. cbn [fold_right].
  now rewrite IH, sort_insert_as_by.
Qed.

(** On an array without [NaN] the sort gives a rearrangement in
    non-decreasing order. *)
Lemma sort_ordered (l : list number) :
  Forall (fun a => is_nan a = false) l ->
  StronglySorted (fun a b => (a <=? b) = true) (sort l) /\ Permutation (sort l) l.
Proof.
  intros Hl. rewrite sort_as_sort_by. split.
  - exact (sort_by_sorted (fun a => a) l Hl).
  - apply sort_by_permutation.
Qed.

Lemma sorted_first (l : list number) (lo : number) :
  Forall (fun a => is_nan a = false) l ->
  StronglySorted (fun a b => (a <=? b) = true) l ->
  idx l 0 = Some lo ->
  Forall (fun z => (lo <=? z) = true) l.
Proof.
  intros Hn Hs Hlo. destruct l as [|x l]; [discriminate|].
  cbn in Hlo. injection Hlo as ->.
  apply Forall_cons_1 in Hn as [Hx _].
  apply StronglySorted_inv in Hs as [_ Hall].
  constructor; [now apply leb_refl|assumption].
Qed.

Lemma sorted_last (l : list number) (hi : number) :
  Forall (fun a => is_nan a = false) l ->
  StronglySorted (fun a b => (a <=? b) = true) l ->
  idx l (Z.of_nat (length l) - 1) = Some hi ->
  Forall (fun z => (z <=? hi) = true) l.
Proof.
  intros Hn Hs. revert hi.
  induction Hs as [|x l Hs IH Hall]; intros hi Hhi; [constructor|].
  apply Forall_cons_1 in Hn as [Hx Hn].
  destruct l as [|y l'].
  - cbn in Hhi. injection Hhi as <-. constructor; [now apply leb_refl|constructor].
  - assert (idx (y :: l') (Z.of_nat (length (y :: l')) - 1) = Some hi) as Hhi'.
    { revert Hhi. unfold idx. cbn [length].
      destruct (Z.ltb_spec (Z.of_nat (S (S (length l'))) - 1) 0); [lia|].
      destruct (Z.ltb_spec (Z.of_nat (S (length l')) - 1) 0); [lia|].
      replace (Z.to_nat (Z.of_nat (S (S (length l'))) - 1))
        with (S (Z.to_nat (Z.of_nat (S (length l')) - 1))) by lia.
      now cbn [nth_error]. }
    specialize (IH Hn hi Hhi').
    constructor; [|exact IH].
    apply Forall_cons_1 in Hall as [Hxy _].
    apply Forall_cons_1 in IH as [Hyhi _].
    exact (leb_trans _ _ _ Hxy Hyhi).
Qed.

(** X11.  The comparator [(a, b) => a - b] orders numbers: on an array without
    [NaN], infinities included, the rounded difference of two values is
    above 0 exactly when the first is the greater, and the sorted copy is a
    rearrangement of the array in non-decreasing order. *)
Theorem sort_comparator_orders (arr : list number) :
  Forall (fun a => is_nan a = false) arr ->
  (forall a b, In a arr -> In b arr -> (0 <? a - b) = (b <? a)) /\
  Permutation (sort arr) arr /\
  StronglySorted (fun a b => (a <=? b) = true) (sort arr).
Proof.
  intros Hn. split; [|split].
  - intros a b Ha Hb. rewrite List.Forall_forall in Hn.
    apply sub_above_zero; auto.
  - rewrite sort_as_sort_by. apply sort_by_permutation.
  - rewrite sort_as_sort_by. exact (sort_by_sorted (fun a => a) arr Hn).
Qed.

Lemma sort_comparator_orders_witness :
  (forall a b, In a [4; 1; infinity; 2] -> In b [4; 1; infinity; 2] ->
               (0 <? a - b) = (b <? a)) /\
  Permutation (sort [4; 1; infinity; 2]) [4; 1; infinity; 2] /\
  StronglySorted (fun a b => (a <=? b) = true) (sort [4; 1; infinity; 2]).
Proof.
  apply (sort_comparator_orders [4; 1; infinity; 2]). repeat constructor.
Defined.

End SortedArrays.

Section SortedResults.

Local Open Scope float_scope.
Import FloatSign Features.
Context `{Runtime}.

(** X27.  The extremes reported for a non-empty series without [NaN] are values
    of the series, and every value lies between them. *)
Theorem extractFeatures_extremes (lightCurve : LightCurveData) :
  flux lightCurve <> [] ->
  Forall (fun f => is_nan f = false) (flux lightCurve) ->
  exists lo hi,
    min (extractFeatures lightCurve) = Some lo /\
    max (extractFeatures lightCurve) = Some hi /\
    In lo (flux lightCurve) /\ In hi (flux lightCurve) /\
    Forall (fun f => (lo <=? f) = true /\ (f <=? hi) = true) (flux lightCurve).
Proof.
  intros Hne Hn. unfold extractFeatures. cbn [min max].
  destruct (sort_ordered (flux lightCurve) Hn) as [Hs Hp].
  assert (Hn' : Forall (fun a => is_nan a = false) (sort (flux lightCurve)))
    by exact (Permutation_Forall (Permutation_sym Hp) Hn).
  assert (0 < Z.of_nat (length (sort (flux lightCurve))))%Z as Hpos.
  { rewrite (Permutation_length Hp).
    destruct (flux lightCurve); [congruence|cbn; lia]. }
  destruct (idx_in_range (sort (flux lightCurve)) 0 ltac:(lia)) as [lo Hlo].
  destruct (idx_in_range (sort (flux lightCurve))
              (Z.of_nat (length (sort (flux lightCurve))) - 1) ltac:(lia))
    as [hi Hhi].
  exists lo, hi. rewrite Hlo, Hhi.
  pose proof (sorted_first _ lo Hn' Hs Hlo) as Hfirst.
  pose proof (sorted_last _ hi Hn' Hs Hhi) as Hlast.
  assert (Hin : forall i v, idx (sort (flux lightCurve)) i = Some v ->
                            In v (flux lightCurve)).
  { intros i v Hv. apply (Permutation_in _ Hp). unfold idx in Hv.
    destruct (i <? 0)%Z; [discriminate|]. eapply nth_error_In, Hv. }
  repeat split; eauto.
  apply (Permutation_Forall Hp).
  apply List.Forall_forall. intros f Hf.
  rewrite List.Forall_forall in Hfirst, Hlast. split; auto.
Qed.

End SortedResults.

Section SortedExamples.

Local Open Scope float_scope.
Import Features.
#[local] Existing Instance example_runtime.

Lemma extractFeatures_extremes_witness :
  exists lo hi,
    min (extractFeatures three_fluxes) = Some lo /\
    max (extractFeatures three_fluxes) = Some hi /\
    In lo (flux three_fluxes) /\ In hi (flux three_fluxes) /\
    Forall (fun f => (lo <=? f) = true /\ (f <=? hi) = true) (flux three_fluxes).
Proof.
  apply (extractFeatures_extremes three_fluxes).
  - discriminate.
  - repeat constructor.
Defined.

End SortedExamples.

Section FoldedPhases.

Local Open Scope float_scope.
Import FloatSign.

Lemma SF_not_nan (x : number) : Prim2SF x <> S754_nan -> is_nan x = false.
Proof.
  intros Hx. unfold is_nan. rewrite FloatAxioms.eqb_spec.
  unfold SFeqb, SFcompare.
  destruct (Prim2SF x) as [[]|[]| |[] m e]; try congruence; try reflexivity;
    now rewrite Z.compare_refl, Pos.compare_cont_refl.
Qed.

Lemma SF2Prim_round_signed_neg (r : positive) (e : Z) :
  signed_as true (Prim2SF (SF2Prim (binary_round prec emax true r e))) = true.
Proof.
  pose proof (binary_round_signed prec emax true r e) as Hs.
  destruct (binary_round prec emax true r e) as [[]|[]| |[] m' e'];
    try discriminate; try reflexivity.
  cbn [SF2Prim]. rewrite opp_spec, Z_ldexp_spec.
  pose proof (Prim2SF_of_uint63_signed (Uint63.of_Z (Z.pos m'))) as Hm.
  destruct (Prim2SF (of_uint63 (Uint63.of_Z (Z.pos m')))) as [[]|[]| |[] m2 e2];
    try discriminate; try reflexivity.
  cbn [SFldexp].
  pose proof (binary_round_signed prec emax false m2 (e2 + e')) as Hb.
  now destruct (binary_round prec emax false m2 (e2 + e')) as [[]|[]| |[] m3 e3].
Qed.

(** The remainder of a finite number by a finite number other than 0 is
    not [NaN]. *)
Lemma rem_not_nan (d p : number) (sp : bool) (mp : positive) (ep : Z) :
  sf_finite (Prim2SF d) = true ->
  Prim2SF p = S754_finite sp mp ep ->
  Prim2SF (rem d p) <> S754_nan.
Proof.
  intros Hd Hp. unfold rem. rewrite Hp.
  destruct (Prim2SF d) as [sd|sd| |sd md ed] eqn:Ed; try discriminate.
  - rewrite Ed. discriminate.
  - set (e := Z.min ed ep).
    pose proof (Z.mod_pos_bound (Z.pos md * 2 ^ (ed - e)) (Z.pos mp * 2 ^ (ep - e))) as Hr.
    assert (0 < Z.pos mp * 2 ^ (ep - e))%Z as Hy
      by (apply Z.mul_pos_pos; [lia|apply Z.pow_pos_nonneg; lia]).
    specialize (Hr Hy).
    destruct ((Z.pos md * 2 ^ (ed - e)) mod (Z.pos mp * 2 ^ (ep - e)))%Z
      as [|r|r]; [| |lia].
    + destruct sd; discriminate.
    + destruct sd; cbn [cond_Zopp Z.opp binary_normalize];
        eapply signed_as_not_nan;
        [apply SF2Prim_round_signed_neg|apply SF2Prim_round_signed].
Qed.

(** The phase of a sample is not [NaN] when the period is finite and not 0
    and the time counted from the epoch is finite. *)
Lemma phase_not_nan (d p : number) :
  is_finite d = true -> is_finite p = true -> (p =? 0) = false ->
  is_nan (rem d p / p) = false.
Proof.
  intros Hd Hp Hp0. apply SF_not_nan. rewrite div_spec.
  apply is_finite_SF in Hd, Hp.
  rewrite FloatAxioms.eqb_spec in Hp0. change (Prim2SF 0) with (S754_zero false) in Hp0.
  destruct (Prim2SF p) as [s|s| |sp mp ep] eqn:Ep; try discriminate.
  apply SFdiv_not_nan. eapply rem_not_nan; [exact Hd|exact Ep].
Qed.

Lemma Forall_imap_fst {B : Type} (P : number -> Prop) (l : list number) :
  Forall P l ->
  forall g : nat -> B, Forall (fun a => P (fst a)) (imap (fun i x => (x, g i)) l).
Proof.
  induction 1 as [|x l Hx _ IH]; intros g; cbn [imap]; constructor.
  - exact Hx.
  - exact (IH (fun i => g (S i))).
Qed.

Lemma StronglySorted_map {A B : Type} (R : B -> B -> Prop) (f : A -> B)
    (l : list A) :
  StronglySorted (fun a b => R (f a) (f b)) l -> StronglySorted R (map f l).
Proof.
  induction 1 as [|x l Hs IH Hall]; cbn [map]; constructor; [assumption|].
  apply List.Forall_forall. intros b Hb. apply in_map_iff in Hb.
  destruct Hb as (a & <- & Ha). rewrite List.Forall_forall in Hall. now apply Hall.
Qed.

(** X7.  For a finite period other than 0 and sample times at a finite distance
    from the epoch, the phases returned by [foldLightCurve] are in
    non-decreasing order. *)
Theorem foldLightCurve_sorted (data : LightCurveData) (period epoch : number) :
  is_finite period = true -> (period =? 0) = false ->
  Forall (fun t => is_finite (t - epoch) = true) (time data) ->
  StronglySorted (fun a b => (a <=? b) = true)
    (time (foldLightCurve data period epoch)).
Proof.
  intros Hp Hp0 Ht. unfold foldLightCurve. cbn [time].
  apply StronglySorted_map.
  apply (sort_by_sorted (A := number * number) fst).
  apply (Forall_imap_fst (fun ph => is_nan ph = false)).
  apply List.Forall_forall. intros ph Hph. apply in_map_iff in Hph.
  destruct Hph as (t & <- & Hin).
  rewrite List.Forall_forall in Ht. apply phase_not_nan; auto.
Qed.

Lemma foldLightCurve_sorted_witness :
  StronglySorted (fun a b => (a <=? b) = true)
    (time (foldLightCurve four_samples 2 1)).
Proof.
  apply (foldLightCurve_sorted four_samples 2 1).
  - reflexivity.
  - reflexivity.
  - repeat constructor.
Defined.

(** X8.  With a finite period above 0 and no sample before the epoch (each
    [t - epoch] finite and not below 0), no phase returned by
    [foldLightCurve] is negative or [NaN]. *)
Theorem foldLightCurve_phase_not_negative (data : LightCurveData)
    (period epoch : number) :
  is_finite period = true -> (0 <? period) = true ->
  Forall (fun t => nonneg_time (t - epoch) = true) (time data) ->
  Forall (fun ph => (0 <=? ph) = true) (time (foldLightCurve data period epoch)).
Proof.
  intros Hfin Hpos Ht.
  assert (exists m e, Prim2SF period = S754_finite false m e) as (m & e & Hp).
  { apply is_finite_SF in Hfin. rewrite ltb_spec in Hpos.
    change (Prim2SF 0) with (S754_zero false) in Hpos.
    destruct (Prim2SF period) as [s|s| |[] m e]; try discriminate; eauto. }
  assert (Hphase : forall t, In t (time data) ->
                     (0 <=? rem (t - epoch) period / period) = true).
  { intros t Hin. rewrite List.Forall_forall in Ht. specialize (Ht t Hin).
    unfold nonneg_time in Ht. apply andb_prop in Ht as [Hd Hd0].
    apply is_finite_SF in Hd. rewrite leb_zero_SF in Hd0.
    rewrite leb_zero_SF, div_spec, Hp. apply SFdiv_nonneg.
    destruct (rem_signed (t - epoch) period false m e Hd Hd0 Hp) as [s [Hr|Hr]].
    - rewrite Hr. reflexivity.
    - now apply signed_as_nonneg. }
  unfold foldLightCurve. cbn [time].
  apply List.Forall_forall. intros ph Hph. apply in_map_iff in Hph.
  destruct Hph as ([ph' f] & <- & Hin). cbn [fst].
  apply (Permutation_in _ (sort_by_permutation _ _)) in Hin.
  assert (Forall (fun a : number * number => (0 <=? fst a) = true)
            (imap (fun i phase => (phase, num_at (flux data) (Z.of_nat i)))
               (map (fun t => rem (t - epoch) period / period) (time data))))
    as Hall.
  { apply (Forall_imap_fst (fun x => (0 <=? x) = true)).
    apply List.Forall_forall. intros x Hx. apply in_map_iff in Hx.
    destruct Hx as (t & <- & Hin'). now apply Hphase. }
  rewrite List.Forall_forall in Hall. exact (Hall _ Hin).
Qed.

Lemma foldLightCurve_phase_not_negative_witness :
  Forall (fun ph => (0 <=? ph) = true) (time (foldLightCurve four_samples 2 0)).
Proof.
  apply (foldLightCurve_phase_not_negative four_samples 2 0).
  - reflexivity.
  - reflexivity.
  - repeat constructor.
Defined.

End FoldedPhases.

(* ===================================================================== *)
(** ** The rows handed to the model, training and the evaluation loop *)
(* ===================================================================== *)

Section ModelInput.

Local Open Scope float_scope.

Lemma padOrTruncate_has_length (arr : list number) (L : nat) :
  length (padOrTruncate arr L) = L.
Proof.
  unfold padOrTruncate.
  destruct (Nat.eqb_spec (length arr) L) as [E|E]; [exact E|].
  destruct (Nat.ltb_spec L (length arr)) as [Hlt|Hge].
  - unfold slice. rewrite length_firstn, length_skipn. lia.
  - rewrite length_app, repeat_length. lia.
Qed.

Lemma padOrTruncate_within (arr : list number) (L i : nat) :
  (i < L)%nat -> nth_error (padOrTruncate arr L) i = Some (nth i arr 0).
Proof.
  intros Hi. unfold padOrTruncate.
  destruct (Nat.eqb_spec (length arr) L) as [E|E].
  - subst L. now apply nth_error_nth'.
  - destruct (Nat.ltb_spec L (length arr)) as [Hlt|Hge].
    + unfold slice. rewrite Nat.sub_0_r. cbn [skipn].
      rewrite nth_error_firstn.
      destruct (Nat.ltb_spec i L) as [_|]; [|lia].
      apply nth_error_nth'. lia.
    + destruct (Nat.lt_ge_cases i (length arr)) as [Hin|Hout].
      * rewrite nth_error_app1 by assumption. now apply nth_error_nth'.
      * rewrite nth_error_app2 by assumption.
        rewrite (nth_overflow arr 0 Hout).
        rewrite nth_error_repeat by lia. reflexivity.
Qed.

(** X14.  [padOrTruncate] element by element: index [i] of the result exists
    exactly below the target length, and holds [arr[i]] where the input has
    one and 0 past its end. *)
Theorem padOrTruncate_elements (arr : list number) (L i : nat) :
  nth_error (padOrTruncate arr L) i
  = if (i <? L)%nat then Some (nth i arr 0) else None.
Proof.
  destruct (Nat.ltb_spec i L) as [Hi|Hi].
  - now apply padOrTruncate_within.
  - apply nth_error_None. now rewrite padOrTruncate_has_length.
Qed.

(** X15.  Whatever the number of samples of a light curve, the array handed to
    the model has the model's input width, 200: the normalised flux, cut
    after 200 values or continued with zeros. *)
Theorem model_input_shape (lc : LightCurveData) :
  length (model_input lc) = 200%nat /\
  forall i, (i < 200)%nat ->
    nth_error (model_input lc) i
    = Some (if (i <? length (flux lc))%nat
            then nth i (normalizeFlux (flux lc)) 0 else 0).
Proof.
  split; [apply padOrTruncate_has_length|].
  intros i Hi. unfold model_input.
  rewrite (padOrTruncate_within _ _ _ Hi).
  destruct (Nat.ltb_spec i (length (flux lc))) as [Hin|Hout]; [reflexivity|].
  rewrite nth_overflow; [reflexivity|].
  unfold normalizeFlux. now rewrite length_map.
Qed.

End ModelInput.

Section Training.

Import Detector.
Context `{TensorLib} `{Runtime}.

Lemma lines_of_cons (call : nat * option Logs * LayersModel * Backend)
    (calls : list (nat * option Logs * LayersModel * Backend))
    (lines : list string) :
  lines_of (call :: calls) lines ->
  exists line rest,
    lines = line :: rest /\
    epoch_line (fst (fst (fst call))) (snd (fst (fst call))) = Some line /\
    lines_of calls rest.
Proof.
  intros Hl. unfold lines_of in *. inversion Hl as [|c line cs rest Hline Hrest]; subst.
  now exists line, rest.
Qed.

(** The epochs whose logs can be printed run to the end, leaving their
    lines on the console. *)
Lemma run_epochs_logged (calls : list (nat * option Logs * LayersModel * Backend)) :
  forall (lines : list string) (w : world),
    lines_of calls lines ->
    exists w1,
      run_epochs calls w = (Return tt, w1) /\
      forall m b, with_model m b w1 = logged lines (with_model m b w).
Proof.
  induction calls as [|[[[epoch logs] mk] bk] rest IH]; intros lines w Hl.
  - inversion Hl; subst. exists w. split; [reflexivity|].
    intros m b. unfold logged, with_model. cbn. now rewrite app_nil_r.
  - apply lines_of_cons in Hl as (line & lines' & -> & Hline & Hrest).
    cbn [fst snd] in Hline.
    cbn [run_epochs]. unfold mbind, M_bind, bind, put_model, onEpochEnd.
    rewrite Hline. unfold console_log.
    match goal with |- context [run_epochs rest ?w2] =>
      destruct (IH lines' w2 Hrest) as (w1 & -> & Hw1) end.
    exists w1. split; [reflexivity|]. intros m b. rewrite Hw1.
    unfold logged, with_model. cbn. now rewrite <- app_assoc.
Qed.

(** The first epoch whose logs lack the loss or the accuracy ends the run
    with the [TypeError], the model being as trained at that epoch. *)
Lemma run_epochs_throws (pre : list (nat * option Logs * LayersModel * Backend))
    (epoch : nat) (logs : option Logs) (mk : LayersModel) (bk : Backend)
    (post : list (nat * option Logs * LayersModel * Backend)) :
  forall (lines : list string) (w : world),
    lines_of pre lines ->
    epoch_line epoch logs = None ->
    run_epochs (pre ++ (epoch, logs, mk, bk) :: post) w
    = (Throw toFixed_of_undefined, logged lines (with_model mk bk w)).
Proof.
  induction pre as [|[[[e l] m] b] pre IH]; intros lines w Hl Hnone.
  - inversion Hl; subst. cbn [app run_epochs].
    unfold mbind, M_bind, bind, put_model, onEpochEnd. rewrite Hnone.
    unfold throw, logged, with_model, toFixed_of_undefined. cbn.
    now rewrite app_nil_r.
  - apply lines_of_cons in Hl as (line & lines' & -> & Hline & Hrest).
    cbn [fst snd] in Hline.
    cbn [app run_epochs]. unfold mbind, M_bind, bind, put_model, onEpochEnd.
    rewrite Hline. unfold console_log.
    match goal with |- context [run_epochs _ ?w2] =>
      rewrite (IH lines' w2 Hrest Hnone) end.
    unfold logged, with_model. cbn. now rewrite <- app_assoc.
Qed.

(** X17.  [trainModel] fits the model in place, or one it has just built
    of input width 200, on one row of width 200 per training curve.  It
    logs one line per epoch and, when the library's run returns, keeps the
    fitted model and returns the history; it throws what the library
    throws, and it throws a [TypeError] at the first epoch whose logs lack
    the loss or the accuracy, the lines of the earlier epochs being
    logged and the model being as trained at that epoch. *)
Theorem trainModel_outcome (trainingData : list LightCurveData)
    (labels : list number) (epochs batchSize : number) (w : world) :
  exists m0 b0,
    (forall m, model (self w) = Some m -> m0 = m /\ b0 = backend w) /\
    (model (self w) = None -> (m0, b0) = tf_compile 200 (backend w)) /\
    Forall (fun row => length row = 200%nat) (map model_input trainingData) /\
    forall calls h m' b',
      tf_fit m0 (map model_input trainingData) labels epochs batchSize b0
      = (calls, (h, m', b')) ->
      (forall lines,
         lines_of calls lines ->
         trainModel trainingData labels epochs batchSize w
         = (outcome_of h, logged lines (with_model m' b' w))) /\
      (forall pre epoch logs mk bk post lines,
         calls = pre ++ (epoch, logs, mk, bk) :: post ->
         lines_of pre lines ->
         epoch_line epoch logs = None ->
         trainModel trainingData labels epochs batchSize w
         = (Throw toFixed_of_undefined, logged lines (with_model mk bk w))).
Proof.
  assert (Hrows : Forall (fun row => length row = 200%nat)
                         (map model_input trainingData)).
  { apply List.Forall_forall. intros row Hrow. apply in_map_iff in Hrow.
    destruct Hrow as (lc & <- & _). apply padOrTruncate_has_length. }
  assert (exists m0 b0 w0,
             ensure_model w = (Return m0, w0) /\ backend w0 = b0 /\
             (forall m b, with_model m b w0 = with_model m b w) /\
             (forall m, model (self w) = Some m -> m0 = m /\ b0 = backend w) /\
             (model (self w) = None -> (m0, b0) = tf_compile 200 (backend w)))
    as (m0 & b0 & w0 & Hens & Hb0 & Hw0 & Hsome & Hnone).
  { destruct (model (self w)) as [m|] eqn:Hm.
    - exists m, (backend w), w. rewrite (ensure_model_present m w Hm).
      repeat split; try discriminate; now injection H1 as <-.
    - destruct (tf_compile 200 (backend w)) as [m b] eqn:Hc.
      exists m, b, (with_model m b w). rewrite (ensure_model_absent w Hm), Hc.
      repeat split; discriminate. }
  exists m0, b0. split; [exact Hsome|]. split; [exact Hnone|].
  split; [exact Hrows|].
  intros calls h m' b' Hfit.
  unfold trainModel, mbind, M_bind, bind. rewrite Hens.
  change (map (fun lc => padOrTruncate (normalizeFlux (flux lc)) inputLength)
              trainingData) with (map model_input trainingData).
  rewrite Hb0, Hfit. split.
  - intros lines Hl.
    destruct (run_epochs_logged calls lines w0 Hl) as (w1 & -> & Hw1).
    change (put_model m' b' w1) with (@Return unit tt, with_model m' b' w1).
    rewrite Hw1, Hw0. now destruct h.
  - intros pre epoch logs mk bk post lines -> Hl Hline.
    rewrite (run_epochs_throws pre epoch logs mk bk post lines w0 Hl Hline).
    now rewrite Hw0.
Qed.

Lemma counted_tally (c : counts) (predicted : bool) (actual : number) :
  counted (tally c predicted actual)
  = (counted c + if is_label actual then 1 else 0)%nat.
Proof.
  unfold tally, is_label, counted.
  destruct predicted, (actual =? 0)%float, (actual =? 1)%float; cbn; lia.
Qed.

(** X20.  Whenever the loop of [evaluateModel] returns, it has added one
    confidence per test curve and has counted each test curve at most
    once: in exactly one of the four counters when its label is 0 or 1,
    and in none otherwise (a missing label included). *)
Theorem evaluate_loop_counts (testLabels : list number)
    (testData : list LightCurveData) :
  forall (i : nat) (c : counts) (predictions : list number) (w : world)
         (c' : counts) (predictions' : list number) (w' : world),
    evaluate_loop testData testLabels i c predictions w
    = (Return (c', predictions'), w') ->
    length predictions' = (length predictions + length testData)%nat /\
    counted c'
    = (counted c
       + length (List.filter (fun j => is_label (num_at testLabels (Z.of_nat j)))
                   (seq i (length testData))))%nat.
Proof.
  induction testData as [|lc rest IH]; intros i c predictions w c' ps' w' Hrun.
  - cbn in Hrun. injection Hrun as <- <- <-. cbn. split; lia.
  - cbn [evaluate_loop] in Hrun. unfold mbind, M_bind, bind in Hrun.
    destruct (predict_run lc w) as (m & b & Hp & _). rewrite Hp in Hrun.
    destruct (prediction_of m lc) as [p|e]; cbn [outcome_of] in Hrun;
      [|discriminate].
    apply IH in Hrun as [Hlen Hcount]. split.
    + rewrite Hlen, length_app. cbn [length]. lia.
    + rewrite Hcount, counted_tally. cbn [length seq List.filter].
      destruct (is_label (num_at testLabels (Z.of_nat i))); cbn [length]; lia.
Qed.

Lemma or_else_zero_not_nan (x : number) : is_nan (or_else x 0) = false.
Proof.
  unfold or_else, truthy.
  destruct (is_nan x) eqn:E; [reflexivity|].
  destruct (is_zero x); [reflexivity|exact E].
Qed.

(** X19.  The metrics guarded by [|| 0] are never [NaN]: whenever
    [evaluateModel] returns, its precision, recall and F1 score are
    numbers, whatever the test set.  The accuracy has no such guard: on an
    empty test set it is [NaN]. *)
Theorem evaluateModel_guarded_metrics
    (testData : list LightCurveData) (testLabels : list number)
    (w w' : world) (metrics : Metrics) :
  evaluateModel testData testLabels w = (Return metrics, w') ->
  is_nan (precision metrics) = false /\
  is_nan (recall metrics) = false /\
  is_nan (f1Score metrics) = false /\
  (testData = [] -> is_nan (accuracy metrics) = true).
Proof.
  unfold evaluateModel, mbind, M_bind, bind, get_model.
  destruct (model (self w)) as [m|]; [|discriminate].
  destruct (evaluate_loop testData testLabels 0 _ [] w) as [[[c ps]|e] w1] eqn:Hloop;
    [|discriminate].
  intros [= <- <-]. cbn [precision recall f1Score accuracy].
  split; [apply or_else_zero_not_nan|].
  split; [apply or_else_zero_not_nan|].
  split; [apply or_else_zero_not_nan|].
  intros ->. cbn [evaluate_loop] in Hloop. injection Hloop as <- _ _. reflexivity.
Qed.

End Training.

Section TrainingExamples.

Import Detector.
#[local] Existing Instance example_runtime.

Lemma evaluateModel_guarded_metrics_witness :
  exists metrics,
    evaluateModel [] [] built_world = (Return metrics, built_world) /\
    is_nan (precision metrics) = false /\
    is_nan (recall metrics) = false /\
    is_nan (f1Score metrics) = false /\
    (([] : list LightCurveData) = [] -> is_nan (accuracy metrics) = true).
Proof.
  eexists. split; [reflexivity|].
  apply (@evaluateModel_guarded_metrics constant_lib [] [] built_world built_world).
  reflexivity.
Defined.

Lemma evaluate_loop_counts_witness :
  exists c' predictions',
    evaluate_loop [four_samples; three_samples] [1; 0.5]%float 0
      {| truePositives := 0; trueNegatives := 0;
         falsePositives := 0; falseNegatives := 0 |} [] built_world
    = (Return (c', predictions'), built_world) /\
    length predictions' = 2%nat /\ @counted constant_lib c' = 1%nat.
Proof.
  exists {| truePositives := 1; trueNegatives := 0;
            falsePositives := 0; falseNegatives := 0 |}, [0.75; 0.75]%float.
  assert (Hrun : evaluate_loop [four_samples; three_samples] [1; 0.5]%float 0
                   {| truePositives := 0; trueNegatives := 0;
                      falsePositives := 0; falseNegatives := 0 |} [] built_world
                 = (Return ({| truePositives := 1; trueNegatives := 0;
                               falsePositives := 0; falseNegatives := 0 |},
                            [0.75; 0.75]%float), built_world))
    by (vm_compute; reflexivity).
  split; [exact Hrun|].
  destruct (@evaluate_loop_counts constant_lib [1; 0.5]%float
              [four_samples; three_samples] 0 _ [] built_world _ _ built_world
              Hrun) as [Hlen Hcount].
  split; [exact Hlen|exact Hcount].
Defined.

End TrainingExamples.

(* ===================================================================== *)
(** ** The median, and synthetic light curves *)
(* ===================================================================== *)

Section Median.

Local Open Scope float_scope.

Lemma StronglySorted_middle {A : Type} (R : A -> A -> Prop) (l1 : list A) (x : A)
    (l2 : list A) :
  StronglySorted R (l1 ++ x :: l2) ->
  Forall (fun a => R a x) l1 /\ Forall (R x) l2.
Proof.
  induction l1 as [|a l1 IH]; cbn [app]; intros Hs.
  - split; [constructor|]. now apply StronglySorted_inv in Hs.
  - apply StronglySorted_inv in Hs as [Hs Hall]. destruct (IH Hs) as [H1 H2].
    split; [|assumption]. constructor; [|assumption].
    rewrite List.Forall_forall in Hall. apply Hall, in_elt.
Qed.

Lemma num_at_nth_error (l : list number) (k : nat) (x : number) :
  nth_error l k = Some x -> num_at l (Z.of_nat k) = x.
Proof.
  intros Hx. unfold num_at, idx.
  destruct (Z.ltb_spec (Z.of_nat k) 0); [lia|]. now rewrite Nat2Z.id, Hx.
Qed.

(** X9.  The median of an odd number of values, none of them [NaN], is one of
    the values: as many of the others are at most it as are at least it. *)
Theorem calculateMedian_odd (arr : list number) :
  Forall (fun a => is_nan a = false) arr ->
  (length arr mod 2 = 1)%nat ->
  exists below above,
    Permutation (below ++ calculateMedian arr :: above) arr /\
    length below = length above /\
    Forall (fun z => (z <=? calculateMedian arr) = true) below /\
    Forall (fun z => (calculateMedian arr <=? z) = true) above.
Proof.
  intros Hn Hodd. destruct (sort_ordered arr Hn) as [Hs Hp].
  unfold calculateMedian. cbn zeta. rewrite (Permutation_length Hp), Hodd.
  cbn [Nat.eqb].
  pose proof (Nat.div_mod_eq (length arr) 2) as Hdiv. rewrite Hodd in Hdiv.
  destruct (nth_error (sort arr) (length arr / 2)) as [x|] eqn:Hx.
  2:{ apply nth_error_None in Hx. rewrite (Permutation_length Hp) in Hx. lia. }
  rewrite (num_at_nth_error _ _ _ Hx).
  destruct (nth_error_split _ _ Hx) as (below & above & Hsplit & Hlen).
  exists below, above. rewrite Hsplit in Hs, Hp.
  split; [exact Hp|]. split.
  - apply Permutation_length in Hp. rewrite length_app in Hp. cbn [length] in Hp. lia.
  - exact (StronglySorted_middle _ _ _ _ Hs).
Qed.

Lemma calculateMedian_odd_witness :
  exists below above,
    Permutation (below ++ calculateMedian [4; 1; 2] :: above) [4; 1; 2] /\
    length below = length above /\
    Forall (fun z => (z <=? calculateMedian [4; 1; 2]) = true) below /\
    Forall (fun z => (calculateMedian [4; 1; 2] <=? z) = true) above.
Proof.
  apply (calculateMedian_odd [4; 1; 2]).
  - repeat constructor.
  - reflexivity.
Defined.

(** X10.  The median of an even number of values, at least two and none of them
    [NaN], is the half sum of two of the values, [a <= b], that split the
    others evenly: as many are at most [a] as are at least [b]. *)
Theorem calculateMedian_even (arr : list number) :
  Forall (fun a => is_nan a = false) arr ->
  arr <> [] ->
  (length arr mod 2 = 0)%nat ->
  exists below a b above,
    calculateMedian arr = (a + b) / 2 /\
    Permutation (below ++ a :: b :: above) arr /\
    length below = length above /\
    (a <=? b) = true /\
    Forall (fun z => (z <=? a) = true) below /\
    Forall (fun z => (b <=? z) = true) above.
Proof.
  intros Hn Hne Heven. destruct (sort_ordered arr Hn) as [Hs Hp].
  unfold calculateMedian. cbn zeta. rewrite (Permutation_length Hp), Heven.
  cbn [Nat.eqb].
  pose proof (Nat.div_mod_eq (length arr) 2) as Hdiv. rewrite Heven in Hdiv.
  assert (0 < length arr)%nat as Hpos by (destruct arr; [congruence|cbn; lia]).
  destruct (nth_error (sort arr) (length arr / 2 - 1)) as [a|] eqn:Ha.
  2:{ apply nth_error_None in Ha. rewrite (Permutation_length Hp) in Ha. lia. }
  destruct (nth_error (sort arr) (length arr / 2)) as [b|] eqn:Hb.
  2:{ apply nth_error_None in Hb. rewrite (Permutation_length Hp) in Hb. lia. }
  replace (Z.of_nat (length arr / 2) - 1)%Z with (Z.of_nat (length arr / 2 - 1))
    by lia.
  rewrite (num_at_nth_error _ _ _ Ha), (num_at_nth_error _ _ _ Hb).
  destruct (nth_error_split _ _ Ha) as (below & rest & Hsplit & Hlen).
  rewrite Hsplit in Hb.
  rewrite nth_error_app2 in Hb by lia.
  replace (length arr / 2 - length below)%nat with 1%nat in Hb by lia.
  destruct rest as [|b' above]; [discriminate|]. cbn in Hb. injection Hb as ->.
  exists below, a, b, above. rewrite Hsplit in Hs, Hp.
  split; [reflexivity|]. split; [exact Hp|].
  destruct (StronglySorted_middle _ _ _ _ Hs) as [Hbelow Hafter].
  apply Forall_cons_1 in Hafter as [Hab _].
  change (below ++ a :: b :: above) with (below ++ [a] ++ b :: above) in Hs.
  rewrite app_assoc in Hs.
  destruct (StronglySorted_middle _ _ _ _ Hs) as [_ Habove].
  split.
  - apply Permutation_length in Hp. rewrite length_app in Hp. cbn [length] in Hp. lia.
  - repeat split; assumption.
Qed.

Lemma calculateMedian_even_witness :
  exists below a b above,
    calculateMedian [4; 1; 2; 3] = (a + b) / 2 /\
    Permutation (below ++ a :: b :: above) [4; 1; 2; 3] /\
    length below = length above /\
    (a <=? b) = true /\
    Forall (fun z => (z <=? a) = true) below /\
    Forall (fun z => (b <=? z) = true) above.
Proof.
  apply (calculateMedian_even [4; 1; 2; 3]).
  - repeat constructor.
  - discriminate.
  - reflexivity.
Defined.

End Median.

Section SyntheticCurves.

Local Open Scope float_scope.

Variable Math_cos : number -> number.

Lemma noise_fold (ts : list number) :
  forall (pre : list number) (r : Random),
    fold_left noise_step ts (pre, r)
    = (pre ++ map (fun i => 1.0 + (draws r (drawn r + i) - 0.5) * 0.001)
                 (seq 0 (length ts)),
       {| draws := draws r; drawn := drawn r + length ts |}).
Proof.
  induction ts as [|t ts IH]; intros pre r; cbn [fold_left length seq map].
  - rewrite app_nil_r, Nat.add_0_r. now destruct r.
  - unfold noise_step at 2, Math_random. rewrite IH. cbn [draws drawn].
    rewrite <- app_assoc. cbn [app]. rewrite Nat.add_0_r.
    rewrite <- seq_shift, map_map. f_equal; [|f_equal; lia].
    f_equal. f_equal. apply map_ext. intros i. now rewrite Nat.add_succ_comm.
Qed.

Lemma transit_fold (period depth duration : number) (ts : list number) :
  forall (fs pre : list number),
    length ts = length fs ->
    fold_left (transit_step Math_cos period depth duration)
      (imap (fun i t => (length pre + i, t)%nat) ts) (pre ++ fs)
    = pre ++ zip_with (with_transit Math_cos period depth duration) ts fs.
Proof.
  induction ts as [|t ts IH]; intros fs pre Hlen; [now destruct fs|].
  destruct fs as [|f fs]; [discriminate|]. injection Hlen as Hlen.
  cbn [imap fold_left zip_with].
  rewrite (imap_ext _ (fun i x => (length (pre ++ [with_transit Math_cos period depth duration t f]) + i, x)%nat))
    by (intros i x _; unfold compose; rewrite length_app; cbn [length]; f_equal; lia).
  assert (transit_step Math_cos period depth duration (pre ++ f :: fs)
            ((length pre + 0)%nat, t)
          = (pre ++ [with_transit Math_cos period depth duration t f]) ++ fs) as ->.
  { unfold transit_step, with_transit.
    destruct (rem t period / period <? duration).
    - rewrite num_at_app_middle, Nat.add_0_r.
      rewrite insert_app_r_alt by lia. rewrite Nat.sub_diag. cbn.
      now rewrite <- app_assoc.
    - now rewrite <- app_assoc. }
  rewrite (IH fs _ Hlen). now rewrite <- app_assoc.
Qed.

(** X12.  The shape of a synthetic light curve: [length] sample times spaced by
    0.02 from 0, as many flux values, and one random value drawn per sample,
    plus three (period, depth, duration) when a transit is asked for. *)
Theorem generateSyntheticLightCurve_shape (hasTransit : bool) (n : nat)
    (r : Random) :
  let out := generateSyntheticLightCurve Math_cos hasTransit n r in
  time (fst out) = map (fun i => of_nat i * 0.02) (seq 0 n) /\
  length (flux (fst out)) = n /\
  snd out = {| draws := draws r;
               drawn := drawn r + n + if hasTransit then 3 else 0 |}.
Proof.
  cbn zeta. unfold generateSyntheticLightCurve.
  rewrite noise_fold, length_map, length_seq. cbn [app].
  destruct hasTransit.
  - unfold Math_random. cbn [draws drawn fst snd time flux].
    split; [reflexivity|]. split; [|f_equal; lia].
    pose proof (transit_fold
                  (3 + draws r (drawn r + n) * 7)
                  (0.005 + draws r (S (drawn r + n)) * 0.015)
                  (0.05 + draws r (S (S (drawn r + n))) * 0.05)
                  (map (fun i => of_nat i * 0.02) (seq 0 n))
                  (map (fun i => 1.0 + (draws r (drawn r + i) - 0.5) * 0.001) (seq 0 n))
                  []) as E.
    cbn [app length Nat.add] in E. rewrite (imap_ext _ pair) in E by reflexivity.
    rewrite E by now rewrite !length_map.
    rewrite length_zip_with, !length_map, length_seq. lia.
  - cbn [fst snd time flux]. split; [reflexivity|].
    split; [now rewrite length_map, length_seq|f_equal; lia].
Qed.

(** X13.  The flux of a synthetic light curve, sample by sample.  Without a
    transit the value at index [i] is [1 + (u_i - 0.5) * 0.001] for the
    [i]-th value drawn; with a transit, whose period, depth and duration
    come from the next three draws, the same value is scaled by
    [1 - depth * (1 - cos(PI * phase / duration)) / 2] where the phase is
    below the duration, and kept elsewhere. *)
Theorem generateSyntheticLightCurve_flux (n : nat) (r : Random) :
  let base :=
    map (fun i => 1.0 + (draws r (drawn r + i) - 0.5) * 0.001) (seq 0 n) in
  let period := 3 + draws r (drawn r + n) * 7 in
  let depth := 0.005 + draws r (drawn r + n + 1) * 0.015 in
  let duration := 0.05 + draws r (drawn r + n + 2) * 0.05 in
  flux (fst (generateSyntheticLightCurve Math_cos false n r)) = base /\
  flux (fst (generateSyntheticLightCurve Math_cos true n r))
  = zip_with (with_transit Math_cos period depth duration)
      (map (fun i => of_nat i * 0.02) (seq 0 n)) base.
Proof.
  cbn zeta. unfold generateSyntheticLightCurve.
  rewrite noise_fold, length_map, length_seq. cbn [app].
  split; [reflexivity|].
  unfold Math_random. cbn [draws drawn fst snd time flux].
  pose proof (transit_fold
                (3 + draws r (drawn r + n) * 7)
                (0.005 + draws r (S (drawn r + n)) * 0.015)
                (0.05 + draws r (S (S (drawn r + n))) * 0.05)
                (map (fun i => of_nat i * 0.02) (seq 0 n))
                (map (fun i => 1.0 + (draws r (drawn r + i) - 0.5) * 0.001) (seq 0 n))
                []) as E.
  cbn [app length Nat.add] in E. rewrite (imap_ext _ pair) in E by reflexivity.
  rewrite E by now rewrite !length_map.
  now replace (drawn r + n + 1)%nat with (S (drawn r + n)) by lia;
    replace (drawn r + n + 2)%nat with (S (S (drawn r + n))) by lia.
Qed.

End SyntheticCurves.
